(** * Customer profile wizard: wizard state machine, profile store, exporters

    A shallow embedding of [CustomerProfileGenerator], the React component of
    this repository, together with the parts of the JavaScript runtime it
    relies on: strings as sequences of UTF-16 code units,
    [String.prototype.trim], [Array.prototype.join], [JSON.stringify],
    [JSON.parse] and [localStorage].

    The component keeps its state in [useState] hooks, and every event
    handler runs to completion before the next event is delivered.  The
    component is therefore a record of hook values and a total function
    [handle] from events to state changes; a control that is not rendered,
    or is disabled, in a state receives no event there, so [handle] leaves
    the state alone.  [handleGenerate] is the one handler that waits: it is
    split at its [await] into the call and the settlement, and any other
    event may come in between.

    Part I is the program, Part II the properties. *)

From Stdlib Require Import String Ascii NArith ZArith List Bool Lia.
From stdpp Require Import base option list gmap.

(** * Part I: the program *)

(** ** JavaScript strings *)

(** A JavaScript string is a finite sequence of UTF-16 code units. *)
Abbreviation jsstring := (list N).

(** ASCII literals of the source, as code units. *)
Definition lit (s : string) : jsstring :=
  map N_of_ascii (list_ascii_of_string s).

(** [ToBoolean] on a string: only the empty string is falsy. *)
Definition truthy (s : jsstring) : bool :=
  match s with
  | [] => false
  | _ :: _ => true
  end.

(** [a || b] on strings. *)
Definition or_else (a b : jsstring) : jsstring :=
  if truthy a then a else b.

(** White space and line terminators, the code units that [trim] strips:
    TAB, LF, VT, FF, CR, SP, NBSP, U+1680, U+2000..U+200A, LS, PS, U+202F,
    U+205F, U+3000 and U+FEFF. *)
Definition is_js_space (c : N) : bool :=
  ((9 <=? c) && (c <=? 13) || (c =? 32) || (c =? 160) || (c =? 5760)
   || (8192 <=? c) && (c <=? 8202) || (c =? 8232) || (c =? 8233)
   || (c =? 8239) || (c =? 8287) || (c =? 12288) || (c =? 65279))%N.

Fixpoint trimStart (s : jsstring) : jsstring :=
  match s with
  | [] => []
  | c :: r => if is_js_space c then trimStart r else s
  end.

Definition trimEnd (s : jsstring) : jsstring := rev (trimStart (rev s)).

Definition trim (s : jsstring) : jsstring := trimEnd (trimStart s).

(** [Array.prototype.join] on an array of strings. *)
Fixpoint join (sep : jsstring) (l : list jsstring) : jsstring :=
  match l with
  | [] => []
  | [x] => x
  | x :: r => x ++ sep ++ join sep r
  end.

(** ** JSON values *)

(** The values [JSON.parse] can produce.  An object is the list of its own
    properties in property order.  A number keeps the text of its literal:
    the double it denotes is not computed. *)
#[warnings="-register-all"]
Inductive JValue : Type :=
| JNull
| JBool (b : bool)
| JNumber (lexeme : jsstring)
| JString (s : jsstring)
| JArray (items : list JValue)
| JObject (members : list (jsstring * JValue)).

(** Induction on JSON values, with the hypothesis for every item of an
    array and every member of an object. *)
Section JValue_nested_ind.
Variable P : JValue -> Prop.
Hypothesis Hnull : P JNull.
Hypothesis Hbool : forall b, P (JBool b).
Hypothesis Hnumber : forall x, P (JNumber x).
Hypothesis Hstring : forall s, P (JString s).
Hypothesis Harray : forall items, Forall P items -> P (JArray items).
Hypothesis Hobject :
  forall members, Forall (fun kv => P (snd kv)) members -> P (JObject members).

Fixpoint JValue_nested_ind (v : JValue) : P v :=
  match v with
  | JNull => Hnull
  | JBool b => Hbool b
  | JNumber x => Hnumber x
  | JString s => Hstring s
  | JArray items =>
      Harray items
        ((fix all (l : list JValue) : Forall P l :=
            match l with
            | [] => List.Forall_nil P
            | x :: l' => @List.Forall_cons _ P x l' (JValue_nested_ind x) (all l')
            end) items)
  | JObject members =>
      Hobject members
        ((fix all (l : list (jsstring * JValue))
            : Forall (fun kv => P (snd kv)) l :=
            match l with
            | [] => List.Forall_nil _
            | kv :: l' =>
                @List.Forall_cons _ (fun kv => P (snd kv)) kv l'
                  (JValue_nested_ind (snd kv)) (all l')
            end) members)
  end.
End JValue_nested_ind.

(** *** [JSON.stringify] *)

Definition hex_digit (d : N) : N := (if d <? 10 then 48 + d else 87 + d)%N.

(** [\uXXXX], lower-case hexadecimal. *)
Definition unicode_escape (c : N) : jsstring :=
  [92; 117; hex_digit (c / 4096); hex_digit (c / 256 mod 16);
   hex_digit (c / 16 mod 16); hex_digit (c mod 16)]%N.

Definition is_leading_surrogate (c : N) : bool := ((55296 <=? c) && (c <=? 56319))%N.
Definition is_trailing_surrogate (c : N) : bool := ((56320 <=? c) && (c <=? 57343))%N.

(** The escape of a code unit below U+0020: the short forms of
    [QuoteJSONString]'s table, [\uXXXX] for the rest. *)
Definition control_escape (c : N) : jsstring :=
  (if c =? 8 then [92; 98]
   else if c =? 9 then [92; 116]
   else if c =? 10 then [92; 110]
   else if c =? 12 then [92; 102]
   else if c =? 13 then [92; 114]
   else unicode_escape c)%N.

(** [QuoteJSONString] without the surrounding quotes: the double quote and
    the backslash are escaped, so are control characters and surrogates
    that are not part of a pair; everything else is copied. *)
Fixpoint quote_body (s : jsstring) : jsstring :=
  match s with
  | [] => []
  | c :: r =>
      if (c =? 34)%N then [92; 34]%N ++ quote_body r
      else if (c =? 92)%N then [92; 92]%N ++ quote_body r
      else if (c <? 32)%N then control_escape c ++ quote_body r
      else if is_leading_surrogate c then
        match r with
        | d :: r' =>
            if is_trailing_surrogate d then c :: d :: quote_body r'
            else unicode_escape c ++ quote_body r
        | [] => unicode_escape c
        end
      else if is_trailing_surrogate c then unicode_escape c ++ quote_body r
      else c :: quote_body r
  end.

Definition quote (s : jsstring) : jsstring := [34%N] ++ quote_body s ++ [34%N].

(** The closing steps of [SerializeJSONObject] and [SerializeJSONArray]:
    [partial] holds the serialized members. *)
Definition wrap (open close : N) (gap stepback indent : jsstring)
    (partial : list jsstring) : jsstring :=
  match partial with
  | [] => [open; close]
  | _ :: _ =>
      if truthy gap
      then [open] ++ [10%N] ++ indent ++ join ([44; 10]%N ++ indent) partial
             ++ [10%N] ++ stepback ++ [close]
      else [open] ++ join [44%N] partial ++ [close]
  end.

(** [SerializeJSONProperty] on a JSON value, at indentation [indent]. *)
Fixpoint serialize (gap indent : jsstring) (v : JValue) : jsstring :=
  match v with
  | JNull => lit "null"
  | JBool true => lit "true"
  | JBool false => lit "false"
  | JNumber x => x
  | JString s => quote s
  | JArray items =>
      wrap 91 93 gap indent (indent ++ gap)
        (map (serialize gap (indent ++ gap)) items)
  | JObject members =>
      wrap 123 125 gap indent (indent ++ gap)
        (map (fun kv =>
                quote (fst kv) ++ [58%N] ++ (if truthy gap then [32%N] else [])
                  ++ serialize gap (indent ++ gap) (snd kv))
           members)
  end.

(** [JSON.stringify(v, null, space)] for a numeric [space]; [space = 0]
    is the call without a third argument. *)
Definition JSON_stringify (v : JValue) (space : nat) : jsstring :=
  serialize (repeat 32%N (Nat.min space 10)) [] v.

(** *** [JSON.parse] *)

(** JSON white space: space, tab, line feed, carriage return. *)
Definition is_json_ws (c : N) : bool :=
  ((c =? 32) || (c =? 9) || (c =? 10) || (c =? 13))%N.

Fixpoint skip_ws (s : jsstring) : jsstring :=
  match s with
  | [] => []
  | c :: r => if is_json_ws c then skip_ws r else s
  end.

Definition hex_value (c : N) : option N :=
  (if (48 <=? c) && (c <=? 57) then Some (c - 48)
   else if (97 <=? c) && (c <=? 102) then Some (c - 87)
   else if (65 <=? c) && (c <=? 70) then Some (c - 55)
   else None)%N.

Definition decode4 (h1 h2 h3 h4 : N) : option N :=
  match hex_value h1, hex_value h2, hex_value h3, hex_value h4 with
  | Some a, Some b, Some c, Some d => Some (((a * 16 + b) * 16 + c) * 16 + d)%N
  | _, _, _, _ => None
  end.

(** The code unit a one-letter escape stands for. *)
Definition simple_escape (e : N) : option N :=
  (if e =? 34 then Some 34
   else if e =? 92 then Some 92
   else if e =? 47 then Some 47
   else if e =? 98 then Some 8
   else if e =? 102 then Some 12
   else if e =? 110 then Some 10
   else if e =? 114 then Some 13
   else if e =? 116 then Some 9
   else None)%N.

(** The characters of a string literal after its opening quote, up to and
    including the closing quote; the result is the string and the rest of
    the input. *)
Fixpoint parse_string (s : jsstring) : option (jsstring * jsstring) :=
  match s with
  | [] => None
  | c :: r =>
      if (c =? 34)%N then Some ([], r)
      else if (c =? 92)%N then
        match r with
        | [] => None
        | e :: r1 =>
            if (e =? 117)%N then
              match r1 with
              | h1 :: h2 :: h3 :: h4 :: r2 =>
                  match decode4 h1 h2 h3 h4, parse_string r2 with
                  | Some u, Some (t, rest) => Some (u :: t, rest)
                  | _, _ => None
                  end
              | _ => None
              end
            else
              match simple_escape e, parse_string r1 with
              | Some u, Some (t, rest) => Some (u :: t, rest)
              | _, _ => None
              end
        end
      else if (c <? 32)%N then None
      else
        match parse_string r with
        | Some (t, rest) => Some (c :: t, rest)
        | None => None
        end
  end.

Definition is_digit (c : N) : bool := ((48 <=? c) && (c <=? 57))%N.

(** The longest prefix of digits, and what follows it. *)
Fixpoint take_digits (s : jsstring) : jsstring * jsstring :=
  match s with
  | [] => ([], [])
  | c :: r =>
      if is_digit c then let (ds, rest) := take_digits r in (c :: ds, rest)
      else ([], s)
  end.

(** A JSON number: an optional minus sign; then either a single zero or a
    non-zero digit followed by digits; then optionally a dot and one or more
    digits; then optionally an exponent: e or E, an optional sign and one or
    more digits. *)
Definition parse_sign (s : jsstring) : jsstring * jsstring :=
  match s with
  | c :: r => if (c =? 45)%N then ([c], r) else ([], s)
  | [] => ([], s)
  end.

Definition parse_int (s : jsstring) : option (jsstring * jsstring) :=
  match s with
  | c :: r =>
      if (c =? 48)%N then Some ([c], r)
      else if is_digit c then let (ds, rest) := take_digits r in Some (c :: ds, rest)
      else None
  | [] => None
  end.

Definition parse_frac (s : jsstring) : option (jsstring * jsstring) :=
  match s with
  | c :: r =>
      if (c =? 46)%N then
        match take_digits r with
        | ([], _) => None
        | (ds, rest) => Some (c :: ds, rest)
        end
      else Some ([], s)
  | [] => Some ([], s)
  end.

Definition parse_exp (s : jsstring) : option (jsstring * jsstring) :=
  match s with
  | c :: r =>
      if ((c =? 101) || (c =? 69))%N then
        let (sg, r1) :=
          match r with
          | d :: r' => if ((d =? 43) || (d =? 45))%N then ([d], r') else ([], r)
          | [] => ([], r)
          end in
        match take_digits r1 with
        | ([], _) => None
        | (ds, rest) => Some (c :: sg ++ ds, rest)
        end
      else Some ([], s)
  | [] => Some ([], s)
  end.

Definition parse_number (s : jsstring) : option (jsstring * jsstring) :=
  let (sg, s1) := parse_sign s in
  match parse_int s1 with
  | None => None
  | Some (i, s2) =>
      match parse_frac s2 with
      | None => None
      | Some (f, s3) =>
          match parse_exp s3 with
          | None => None
          | Some (e, s4) => Some (sg ++ i ++ f ++ e, s4)
          end
      end
  end.

(** [strip_prefix p s] is what follows [p] in [s], when [s] starts with [p]. *)
Fixpoint strip_prefix (p s : jsstring) : option jsstring :=
  match p, s with
  | [], _ => Some s
  | a :: p', b :: s' => if (a =? b)%N then strip_prefix p' s' else None
  | _ :: _, [] => None
  end.

(** *** Property order of objects *)

(** An array index is a canonical numeric string below 2^32 - 1; an object
    lists such keys first, in ascending order, then the other keys in the
    order of their creation. *)
Definition digits_value (s : jsstring) : N :=
  fold_left (fun acc c => (acc * 10 + (c - 48))%N) s 0%N.

Definition array_index (k : jsstring) : option N :=
  match k with
  | [] => None
  | c :: r =>
      if forallb is_digit k && ((c =? 48)%N && negb (truthy r) || negb (c =? 48)%N)
         && (digits_value k <? 4294967295)%N
      then Some (digits_value k) else None
  end.

Definition has_key (k : jsstring) (o : list (jsstring * JValue)) : bool :=
  existsb (fun kv => bool_decide (fst kv = k)) o.

(** Place a fresh array-index key [i] among the index keys of [o]. *)
Fixpoint insert_index (i : N) (k : jsstring) (v : JValue)
    (o : list (jsstring * JValue)) : list (jsstring * JValue) :=
  match o with
  | [] => [(k, v)]
  | kv :: o' =>
      match array_index (fst kv) with
      | Some j => if (j <? i)%N then kv :: insert_index i k v o' else (k, v) :: o
      | None => (k, v) :: o
      end
  end.

(** [CreateDataProperty]: an existing key keeps its place and takes the new
    value; a new key is added. *)
Definition obj_set (o : list (jsstring * JValue)) (kv : jsstring * JValue)
    : list (jsstring * JValue) :=
  if has_key (fst kv) o
  then map (fun old => if bool_decide (fst old = fst kv) then kv else old) o
  else match array_index (fst kv) with
       | Some i => insert_index i (fst kv) (snd kv) o
       | None => o ++ [kv]
       end.

Definition build_object (raw : list (jsstring * JValue)) : list (jsstring * JValue) :=
  fold_left obj_set raw [].

(** *** The parser *)

(** [fuel] bounds the number of nested calls; [JSON_parse] below supplies
    enough of it for every input ([parse_value_fuel]). *)
Fixpoint parse_value (fuel : nat) (s : jsstring) : option (JValue * jsstring) :=
  match fuel with
  | O => None
  | S fuel =>
      match skip_ws s with
      | [] => None
      | c :: r =>
          if (c =? 123)%N then
            match skip_ws r with
            | [] => None
            | c' :: r' =>
                if (c' =? 125)%N then Some (JObject [], r')
                else
                  match parse_members fuel r with
                  | Some (raw, rest) => Some (JObject (build_object raw), rest)
                  | None => None
                  end
            end
          else if (c =? 91)%N then
            match skip_ws r with
            | [] => None
            | c' :: r' =>
                if (c' =? 93)%N then Some (JArray [], r')
                else
                  match parse_elements fuel r with
                  | Some (items, rest) => Some (JArray items, rest)
                  | None => None
                  end
            end
          else if (c =? 34)%N then
            match parse_string r with
            | Some (str, rest) => Some (JString str, rest)
            | None => None
            end
          else
            match strip_prefix (lit "true") (c :: r),
                  strip_prefix (lit "false") (c :: r),
                  strip_prefix (lit "null") (c :: r) with
            | Some rest, _, _ => Some (JBool true, rest)
            | _, Some rest, _ => Some (JBool false, rest)
            | _, _, Some rest => Some (JNull, rest)
            | None, None, None =>
                match parse_number (c :: r) with
                | Some (x, rest) => Some (JNumber x, rest)
                | None => None
                end
            end
      end
  end
with parse_elements (fuel : nat) (s : jsstring) : option (list JValue * jsstring) :=
  match fuel with
  | O => None
  | S fuel =>
      match parse_value fuel s with
      | None => None
      | Some (v, r) =>
          match skip_ws r with
          | [] => None
          | c :: r' =>
              if (c =? 44)%N then
                match parse_elements fuel r' with
                | Some (vs, rest) => Some (v :: vs, rest)
                | None => None
                end
              else if (c =? 93)%N then Some ([v], r')
              else None
          end
      end
  end
with parse_members (fuel : nat) (s : jsstring)
    : option (list (jsstring * JValue) * jsstring) :=
  match fuel with
  | O => None
  | S fuel =>
      match skip_ws s with
      | [] => None
      | q :: r0 =>
          if (q =? 34)%N then
            match parse_string r0 with
            | None => None
            | Some (k, r1) =>
                match skip_ws r1 with
                | [] => None
                | c1 :: r2 =>
                    if (c1 =? 58)%N then
                      match parse_value fuel r2 with
                      | None => None
                      | Some (v, r3) =>
                          match skip_ws r3 with
                          | [] => None
                          | c3 :: r4 =>
                              if (c3 =? 44)%N then
                                match parse_members fuel r4 with
                                | Some (kvs, rest) => Some ((k, v) :: kvs, rest)
                                | None => None
                                end
                              else if (c3 =? 125)%N then Some ([(k, v)], r4)
                              else None
                          end
                      end
                    else None
                end
            end
          else None
      end
  end.

(** [JSON.parse(text)]: [None] stands for the [SyntaxError] it throws. *)
Definition JSON_parse (text : jsstring) : option JValue :=
  match parse_value (2 * length text + 1) text with
  | Some (v, rest) =>
      match skip_ws rest with
      | [] => Some v
      | _ :: _ => None
      end
  | None => None
  end.

(** ** Data model of the component *)

Record User : Type := {
  user_id : jsstring;
  email : jsstring;
  displayName : option jsstring
}.

Record Demographics : Type := {
  ageRange : jsstring;
  gender : jsstring;
  location : jsstring;
  income : jsstring;
  education : jsstring
}.

Record Psychographics : Type := {
  values : list jsstring;
  interests : list jsstring;
  lifestyle : jsstring;
  personality : jsstring
}.

Record BuyingBehavior : Type := {
  decisionFactors : list jsstring;
  purchaseProcess : jsstring;
  budget : jsstring
}.

(** The provider's object is cast to this interface without a check: a
    value of this type stands for an object of the declared shape. *)
Record CustomerProfile : Type := {
  demographics : Demographics;
  psychographics : Psychographics;
  painPoints : list jsstring;
  motivations : list jsstring;
  goals : list jsstring;
  communicationChannels : list jsstring;
  buyingBehavior : BuyingBehavior
}.

(** The template's [id] field is [template_id] here. *)
Record ExampleTemplate : Type := {
  template_id : jsstring;
  title : jsstring;
  description : jsstring;
  vision : jsstring;
  mission : jsstring;
  business : jsstring;
  target : jsstring
}.

Definition EXAMPLE_TEMPLATES : list ExampleTemplate := [
  {| template_id := lit "creative-agency";
     title := lit "Creative Design Agency";
     description := lit "A boutique design agency focusing on brand identity";
     vision := lit "To become the go-to creative partner for innovative brands worldwide";
     mission := lit "We help businesses tell their story through compelling visual design and strategic branding";
     business := lit "We are a full-service creative agency specializing in brand identity, web design, and marketing materials. We work with startups and established businesses to create memorable brand experiences.";
     target := lit "Small to medium businesses, startups, entrepreneurs who value good design and want to stand out in their market" |};
  {| template_id := lit "wellness-coach";
     title := lit "Wellness & Life Coach";
     description := lit "Personal coaching for holistic wellness";
     vision := lit "To empower individuals to live their most authentic and fulfilling lives";
     mission := lit "We guide people through transformative wellness journeys using holistic approaches to mind, body, and spirit";
     business := lit "I offer one-on-one coaching sessions, group workshops, and online courses focused on stress management, mindfulness, nutrition, and personal development.";
     target := lit "Busy professionals, women in their 30s-50s, people going through life transitions, health-conscious individuals" |};
  {| template_id := lit "tech-startup";
     title := lit "SaaS Tech Startup";
     description := lit "B2B software solution for productivity";
     vision := lit "To revolutionize how teams collaborate and manage projects";
     mission := lit "We build intuitive software tools that help teams work smarter, not harder";
     business := lit "We develop cloud-based project management and collaboration software for remote and hybrid teams. Our platform integrates with popular tools and focuses on simplicity and user experience.";
     target := lit "Remote teams, project managers, small to medium businesses, tech-savvy professionals, startups" |}
].

(** The [useState] hooks of [CustomerProfileGenerator].  [savedProfiles] is
    declared [any[]] and receives whatever [JSON.parse] returns, so it is a
    JSON value. *)
Record State : Type := {
  step : nat;
  visionStatement : jsstring;
  missionStatement : jsstring;
  businessDescription : jsstring;
  targetMarket : jsstring;
  isGenerating : bool;
  customerProfile : option CustomerProfile;
  savedProfiles : JValue;
  isSaving : bool;
  showTemplates : bool
}.

(** The hooks' initial values. *)
Definition initial_state : State := {|
  step := 1;
  visionStatement := [];
  missionStatement := [];
  businessDescription := [];
  targetMarket := [];
  isGenerating := false;
  customerProfile := None;
  savedProfiles := JArray [];
  isSaving := false;
  showTemplates := false
|}.

(** A file offered for download: the anchor's [download] attribute, the
    blob's type and its text. *)
Record Download : Type := {
  filename : jsstring;
  mime : jsstring;
  content : jsstring
}.

(** What the handlers read from [Date]: [Date.now().toString()],
    [toLocaleDateString()] and [toISOString()]. *)
Record Clock : Type := {
  now_ms : jsstring;
  localeDate : jsstring;
  isoDate : jsstring
}.

(** The mounted component and what it acts on: its props and hooks, the
    origin's [localStorage], the generation calls sent and not yet settled,
    the prompts sent so far, the files offered for download and the console
    log (newest last). *)
Record World : Type := {
  user : User;
  ui : State;
  storage : gmap jsstring jsstring;
  inflight : nat;
  requests : list jsstring;
  downloads : list Download;
  console : list jsstring
}.

Definition with_ui (w : World) (s : State) : World :=
  {| user := user w; ui := s; storage := storage w; inflight := inflight w;
     requests := requests w; downloads := downloads w; console := console w |}.

Definition log_error (w : World) (msg : jsstring) : World :=
  {| user := user w; ui := ui w; storage := storage w; inflight := inflight w;
     requests := requests w; downloads := downloads w;
     console := console w ++ [msg] |}.

Definition offer_download (w : World) (d : Download) : World :=
  {| user := user w; ui := ui w; storage := storage w; inflight := inflight w;
     requests := requests w; downloads := downloads w ++ [d];
     console := console w |}.

(** ** The typed records as the objects they are at run time *)

Definition strings_json (l : list jsstring) : JValue := JArray (map JString l).

Definition demographics_json (d : Demographics) : JValue :=
  JObject [(lit "ageRange", JString (ageRange d));
           (lit "gender", JString (gender d));
           (lit "location", JString (location d));
           (lit "income", JString (income d));
           (lit "education", JString (education d))].

Definition psychographics_json (p : Psychographics) : JValue :=
  JObject [(lit "values", strings_json (values p));
           (lit "interests", strings_json (interests p));
           (lit "lifestyle", JString (lifestyle p));
           (lit "personality", JString (personality p))].

Definition buyingBehavior_json (b : BuyingBehavior) : JValue :=
  JObject [(lit "decisionFactors", strings_json (decisionFactors b));
           (lit "purchaseProcess", JString (purchaseProcess b));
           (lit "budget", JString (budget b))].

(** Properties in the order of the interface declaration, which is also the
    order of the schema sent to the provider. *)
Definition profile_json (p : CustomerProfile) : JValue :=
  JObject [(lit "demographics", demographics_json (demographics p));
           (lit "psychographics", psychographics_json (psychographics p));
           (lit "painPoints", strings_json (painPoints p));
           (lit "motivations", strings_json (motivations p));
           (lit "goals", strings_json (goals p));
           (lit "communicationChannels", strings_json (communicationChannels p));
           (lit "buyingBehavior", buyingBehavior_json (buyingBehavior p))].

(** ** The hooks' setters *)

Definition setStep (n : nat) (s : State) : State :=
  {| step := n; visionStatement := visionStatement s;
     missionStatement := missionStatement s;
     businessDescription := businessDescription s;
     targetMarket := targetMarket s; isGenerating := isGenerating s;
     customerProfile := customerProfile s; savedProfiles := savedProfiles s;
     isSaving := isSaving s; showTemplates := showTemplates s |}.

Definition setVisionStatement (v : jsstring) (s : State) : State :=
  {| step := step s; visionStatement := v;
     missionStatement := missionStatement s;
     businessDescription := businessDescription s;
     targetMarket := targetMarket s; isGenerating := isGenerating s;
     customerProfile := customerProfile s; savedProfiles := savedProfiles s;
     isSaving := isSaving s; showTemplates := showTemplates s |}.

Definition setMissionStatement (v : jsstring) (s : State) : State :=
  {| step := step s; visionStatement := visionStatement s;
     missionStatement := v;
     businessDescription := businessDescription s;
     targetMarket := targetMarket s; isGenerating := isGenerating s;
     customerProfile := customerProfile s; savedProfiles := savedProfiles s;
     isSaving := isSaving s; showTemplates := showTemplates s |}.

Definition setBusinessDescription (v : jsstring) (s : State) : State :=
  {| step := step s; visionStatement := visionStatement s;
     missionStatement := missionStatement s;
     businessDescription := v;
     targetMarket := targetMarket s; isGenerating := isGenerating s;
     customerProfile := customerProfile s; savedProfiles := savedProfiles s;
     isSaving := isSaving s; showTemplates := showTemplates s |}.

Definition setTargetMarket (v : jsstring) (s : State) : State :=
  {| step := step s; visionStatement := visionStatement s;
     missionStatement := missionStatement s;
     businessDescription := businessDescription s;
     targetMarket := v; isGenerating := isGenerating s;
     customerProfile := customerProfile s; savedProfiles := savedProfiles s;
     isSaving := isSaving s; showTemplates := showTemplates s |}.

Definition setIsGenerating (b : bool) (s : State) : State :=
  {| step := step s; visionStatement := visionStatement s;
     missionStatement := missionStatement s;
     businessDescription := businessDescription s;
     targetMarket := targetMarket s; isGenerating := b;
     customerProfile := customerProfile s; savedProfiles := savedProfiles s;
     isSaving := isSaving s; showTemplates := showTemplates s |}.

Definition setCustomerProfile (p : option CustomerProfile) (s : State) : State :=
  {| step := step s; visionStatement := visionStatement s;
     missionStatement := missionStatement s;
     businessDescription := businessDescription s;
     targetMarket := targetMarket s; isGenerating := isGenerating s;
     customerProfile := p; savedProfiles := savedProfiles s;
     isSaving := isSaving s; showTemplates := showTemplates s |}.

Definition setSavedProfiles (v : JValue) (s : State) : State :=
  {| step := step s; visionStatement := visionStatement s;
     missionStatement := missionStatement s;
     businessDescription := businessDescription s;
     targetMarket := targetMarket s; isGenerating := isGenerating s;
     customerProfile := customerProfile s; savedProfiles := v;
     isSaving := isSaving s; showTemplates := showTemplates s |}.

Definition setIsSaving (b : bool) (s : State) : State :=
  {| step := step s; visionStatement := visionStatement s;
     missionStatement := missionStatement s;
     businessDescription := businessDescription s;
     targetMarket := targetMarket s; isGenerating := isGenerating s;
     customerProfile := customerProfile s; savedProfiles := savedProfiles s;
     isSaving := b; showTemplates := showTemplates s |}.

Definition setShowTemplates (b : bool) (s : State) : State :=
  {| step := step s; visionStatement := visionStatement s;
     missionStatement := missionStatement s;
     businessDescription := businessDescription s;
     targetMarket := targetMarket s; isGenerating := isGenerating s;
     customerProfile := customerProfile s; savedProfiles := savedProfiles s;
     isSaving := isSaving s; showTemplates := b |}.

(** ** Profile store *)

(** [`profiles_${user.id}`] *)
Definition storage_key (u : User) : jsstring := lit "profiles_" ++ user_id u.

(** [localStorage.setItem]; the quota of the storage is not modelled, a
    write always succeeds. *)
Definition setItem (key value : jsstring) (w : World) : World :=
  {| user := user w; ui := ui w; storage := <[key := value]> (storage w);
     inflight := inflight w; requests := requests w;
     downloads := downloads w; console := console w |}.

(** [loadSavedProfiles]: [getItem] yields [null] for a missing key; a
    [SyntaxError] of [JSON.parse] is caught and logged. *)
Definition loadSavedProfiles (w : World) : World :=
  match storage w !! storage_key (user w) with
  | Some saved =>
      if truthy saved then
        match JSON_parse saved with
        | Some v => with_ui w (setSavedProfiles v (ui w))
        | None => log_error w (lit "Error loading saved profiles:")
        end
      else w
  | None => w
  end.

(** The component as first rendered for [u] over the storage [st], before
    its mount effect has run. *)
Definition fresh (u : User) (st : gmap jsstring jsstring) : World :=
  {| user := u; ui := initial_state; storage := st; inflight := 0;
     requests := []; downloads := []; console := [] |}.

(** The mount effect calls [loadSavedProfiles] once, on the hooks' initial
    values.  (The source declares the effect above the [useCallback] it
    names; the effect is taken to run that callback after the first
    render.) *)
Definition mount (u : User) (st : gmap jsstring jsstring) : World :=
  loadSavedProfiles (fresh u st).

(** The strings a string iterates over: its code points, a surrogate pair
    counting as one. *)
Fixpoint code_points (s : jsstring) : list jsstring :=
  match s with
  | [] => []
  | c :: r =>
      match r with
      | d :: r' =>
          if is_leading_surrogate c && is_trailing_surrogate d
          then [c; d] :: code_points r'
          else [c] :: code_points r
      | [] => [[c]]
      end
  end.

(** [[...v]]: arrays and strings are iterable, the other JSON values are
    not and make the spread throw a [TypeError]. *)
Definition spread (v : JValue) : option (list JValue) :=
  match v with
  | JArray items => Some items
  | JString s => Some (map JString (code_points s))
  | _ => None
  end.

Definition profileData (now : Clock) (s : State) (p : CustomerProfile) : JValue :=
  JObject [(lit "id", JString (now_ms now));
           (lit "profileName", JString (lit "Profile " ++ localeDate now));
           (lit "visionStatement", JString (visionStatement s));
           (lit "missionStatement", JString (missionStatement s));
           (lit "businessDescription", JString (businessDescription s));
           (lit "targetMarket", JString (targetMarket s));
           (lit "customerProfile", profile_json p);
           (lit "createdAt", JString (isoDate now))].

(** [saveProfile] has no [await]: it runs to its [finally] in one go. *)
Definition saveProfile (now : Clock) (w : World) : World :=
  match customerProfile (ui w) with
  | None => w
  | Some p =>
      let w1 := with_ui w (setIsSaving true (ui w)) in
      let w2 :=
        match spread (savedProfiles (ui w)) with
        | Some items =>
            let updated := JArray (items ++ [profileData now (ui w) p]) in
            setItem (storage_key (user w)) (JSON_stringify updated 0)
              (with_ui w1 (setSavedProfiles updated (ui w1)))
        | None => log_error w1 (lit "Error saving profile:")
        end in
      with_ui w2 (setIsSaving false (ui w2))
  end.

(** ** Wizard *)

Definition loadTemplate (t : ExampleTemplate) (s : State) : State :=
  setStep 2
    (setShowTemplates false
       (setTargetMarket (target t)
          (setBusinessDescription (business t)
             (setMissionStatement (mission t)
                (setVisionStatement (vision t) s))))).

Definition handleReset (s : State) : State :=
  setCustomerProfile None
    (setTargetMarket []
       (setBusinessDescription []
          (setMissionStatement []
             (setVisionStatement []
                (setStep 1 s))))).

(** ** Generation gateway *)

Definition nl : jsstring := [10%N].

Definition prompt (s : State) : jsstring :=
  nl ++ lit "        Based on the following business information, create a detailed ideal customer profile:"
  ++ nl ++ lit "        "
  ++ nl ++ lit "        Vision Statement: " ++ visionStatement s
  ++ nl ++ lit "        Mission Statement: " ++ missionStatement s
  ++ nl ++ lit "        Business Description: " ++ businessDescription s
  ++ nl ++ lit "        Target Market: " ++ targetMarket s
  ++ nl ++ lit "        "
  ++ nl ++ lit "        Please analyze these statements and create a comprehensive customer profile that includes demographics, psychographics, pain points, motivations, goals, communication channels, and buying behavior."
  ++ nl ++ lit "      ".

(** The schema language of the request: strings, arrays, and objects with
    properties and a list of required ones. *)
#[warnings="-register-all"]
Inductive Schema : Type :=
| SString
| SArray (items : Schema)
| SObject (properties : list (jsstring * Schema)) (required : list jsstring).

Definition string_array : Schema := SArray SString.

Definition profile_schema : Schema :=
  SObject
    [(lit "demographics",
       SObject [(lit "ageRange", SString); (lit "gender", SString);
                (lit "location", SString); (lit "income", SString);
                (lit "education", SString)]
         [lit "ageRange"; lit "gender"; lit "location"; lit "income";
          lit "education"]);
     (lit "psychographics",
       SObject [(lit "values", string_array); (lit "interests", string_array);
                (lit "lifestyle", SString); (lit "personality", SString)]
         [lit "values"; lit "interests"; lit "lifestyle"; lit "personality"]);
     (lit "painPoints", string_array);
     (lit "motivations", string_array);
     (lit "goals", string_array);
     (lit "communicationChannels", string_array);
     (lit "buyingBehavior",
       SObject [(lit "decisionFactors", string_array);
                (lit "purchaseProcess", SString); (lit "budget", SString)]
         [lit "decisionFactors"; lit "purchaseProcess"; lit "budget"])]
    [lit "demographics"; lit "psychographics"; lit "painPoints";
     lit "motivations"; lit "goals"; lit "communicationChannels";
     lit "buyingBehavior"].

(** A value satisfies a schema when it has the schema's type, every
    required property is present, and every property the schema declares
    satisfies its own schema. *)
Fixpoint conforms (sch : Schema) (v : JValue) : bool :=
  match sch, v with
  | SString, JString _ => true
  | SArray item, JArray l => forallb (conforms item) l
  | SObject props req, JObject m =>
      forallb (fun k => has_key k m) req
      && forallb
           (fun kv =>
              (fix declared (ps : list (jsstring * Schema)) : bool :=
                 match ps with
                 | [] => true
                 | (k, sub) :: ps' =>
                     if bool_decide (k = fst kv) then conforms sub (snd kv)
                     else declared ps'
                 end) props)
           m
  | _, _ => false
  end.

(** [handleGenerate] up to its [await]: the trigger is switched off and the
    request goes out. *)
Definition handleGenerate_call (w : World) : World :=
  {| user := user w; ui := setIsGenerating true (ui w); storage := storage w;
     inflight := S (inflight w); requests := requests w ++ [prompt (ui w)];
     downloads := downloads w; console := console w |}.

(** [handleGenerate] after its [await]: the [try] body continues with the
    provider's object, or the [catch] logs the rejection; the [finally]
    runs in both cases. *)
Definition handleGenerate_settle (outcome : option CustomerProfile) (w : World) : World :=
  let w1 :=
    match outcome with
    | Some object =>
        with_ui w (setStep 3 (setCustomerProfile (Some object) (ui w)))
    | None => log_error w (lit "Error generating customer profile:")
    end in
  {| user := user w1; ui := setIsGenerating false (ui w1);
     storage := storage w1; inflight := pred (inflight w1);
     requests := requests w1; downloads := downloads w1;
     console := console w1 |}.

(** ** Exporters *)

Definition exportData (now : Clock) (s : State) (p : CustomerProfile) : JValue :=
  JObject [(lit "generatedAt", JString (isoDate now));
           (lit "businessInfo",
             JObject [(lit "visionStatement", JString (visionStatement s));
                      (lit "missionStatement", JString (missionStatement s));
                      (lit "businessDescription", JString (businessDescription s));
                      (lit "targetMarket", JString (targetMarket s))]);
           (lit "customerProfile", profile_json p)].

Definition handleExportJSON (now : Clock) (w : World) : World :=
  match customerProfile (ui w) with
  | None => w
  | Some p =>
      offer_download w
        {| filename := lit "customer-profile.json";
           mime := lit "application/json";
           content := JSON_stringify (exportData now (ui w) p) 2 |}
  end.

(** [`• ${x}`] *)
Definition bullet (x : jsstring) : jsstring := [8226%N; 32%N] ++ x.

Definition textContent (now : Clock) (s : State) (p : CustomerProfile) : jsstring :=
  trim
    (nl ++ lit "CUSTOMER PROFILE REPORT"
     ++ nl ++ lit "Generated: " ++ localeDate now
     ++ nl
     ++ nl ++ lit "BUSINESS INFORMATION"
     ++ nl ++ lit "Vision Statement: " ++ visionStatement s
     ++ nl ++ lit "Mission Statement: " ++ missionStatement s
     ++ nl ++ lit "Business Description: " ++ businessDescription s
     ++ nl ++ lit "Target Market: " ++ or_else (targetMarket s) (lit "Not specified")
     ++ nl
     ++ nl ++ lit "CUSTOMER PROFILE"
     ++ nl
     ++ nl ++ lit "DEMOGRAPHICS"
     ++ nl ++ lit "Age Range: " ++ ageRange (demographics p)
     ++ nl ++ lit "Gender: " ++ gender (demographics p)
     ++ nl ++ lit "Location: " ++ location (demographics p)
     ++ nl ++ lit "Income Level: " ++ income (demographics p)
     ++ nl ++ lit "Education: " ++ education (demographics p)
     ++ nl
     ++ nl ++ lit "PSYCHOGRAPHICS"
     ++ nl ++ lit "Values: " ++ join (lit ", ") (values (psychographics p))
     ++ nl ++ lit "Interests: " ++ join (lit ", ") (interests (psychographics p))
     ++ nl ++ lit "Lifestyle: " ++ lifestyle (psychographics p)
     ++ nl ++ lit "Personality: " ++ personality (psychographics p)
     ++ nl
     ++ nl ++ lit "PAIN POINTS"
     ++ nl ++ join nl (map bullet (painPoints p))
     ++ nl
     ++ nl ++ lit "MOTIVATIONS"
     ++ nl ++ join nl (map bullet (motivations p))
     ++ nl
     ++ nl ++ lit "GOALS"
     ++ nl ++ join nl (map bullet (goals p))
     ++ nl
     ++ nl ++ lit "COMMUNICATION CHANNELS"
     ++ nl ++ join (lit ", ") (communicationChannels p)
     ++ nl
     ++ nl ++ lit "BUYING BEHAVIOR"
     ++ nl ++ lit "Decision Factors: " ++ join (lit ", ") (decisionFactors (buyingBehavior p))
     ++ nl ++ lit "Purchase Process: " ++ purchaseProcess (buyingBehavior p)
     ++ nl ++ lit "Budget Range: " ++ budget (buyingBehavior p)
     ++ nl ++ lit "    ").

Definition handleExportText (now : Clock) (w : World) : World :=
  match customerProfile (ui w) with
  | None => w
  | Some p =>
      offer_download w
        {| filename := lit "customer-profile.txt";
           mime := lit "text/plain";
           content := textContent now (ui w) p |}
  end.

(** ** Events and the transition function *)

(** What can happen to the mounted component: the user edits a field,
    opens or closes the template dialog, clicks a template card or a button,
    or the pending generation call settles ([Some object]: the provider's
    structured object; [None]: a rejection). *)
Inductive Event : Type :=
| ChangeVision (v : jsstring)
| ChangeMission (v : jsstring)
| ChangeBusiness (v : jsstring)
| ChangeTarget (v : jsstring)
| OpenChangeTemplates (open : bool)
| ClickTemplate (i : nat)
| ClickContinue
| ClickBack
| ClickGenerate
| GatewaySettles (outcome : option CustomerProfile)
| ClickSave (now : Clock)
| ClickExportJSON (now : Clock)
| ClickExportText (now : Clock)
| ClickStartOver.

(** [disabled] of the continue button. *)
Definition continue_disabled (s : State) : bool :=
  negb (truthy (trim (visionStatement s)))
  || negb (truthy (trim (missionStatement s))).

(** [disabled] of the generate button. *)
Definition generate_disabled (s : State) : bool :=
  negb (truthy (trim (businessDescription s))) || isGenerating s.

(** [step === 3 && customerProfile] *)
Definition result_shown (s : State) : bool :=
  (step s =? 3)%nat && bool_decide (is_Some (customerProfile s)).

(** Whether the control behind an event is rendered and enabled, or, for
    the gateway, whether a call is there to settle. *)
Definition enabled (e : Event) (w : World) : bool :=
  let s := ui w in
  match e with
  | ChangeVision _ | ChangeMission _ | OpenChangeTemplates _ => (step s =? 1)%nat
  | ClickTemplate i =>
      (step s =? 1)%nat && showTemplates s
      && bool_decide (is_Some (EXAMPLE_TEMPLATES !! i))
  | ClickContinue => (step s =? 1)%nat && negb (continue_disabled s)
  | ChangeBusiness _ | ChangeTarget _ | ClickBack => (step s =? 2)%nat
  | ClickGenerate => (step s =? 2)%nat && negb (generate_disabled s)
  | GatewaySettles _ => (0 <? inflight w)%nat
  | ClickSave _ => result_shown s && negb (isSaving s)
  | ClickExportJSON _ | ClickExportText _ | ClickStartOver => result_shown s
  end.

Definition fire (e : Event) (w : World) : World :=
  match e with
  | ChangeVision v => with_ui w (setVisionStatement v (ui w))
  | ChangeMission v => with_ui w (setMissionStatement v (ui w))
  | ChangeBusiness v => with_ui w (setBusinessDescription v (ui w))
  | ChangeTarget v => with_ui w (setTargetMarket v (ui w))
  | OpenChangeTemplates b => with_ui w (setShowTemplates b (ui w))
  | ClickTemplate i =>
      match EXAMPLE_TEMPLATES !! i with
      | Some t => with_ui w (loadTemplate t (ui w))
      | None => w
      end
  | ClickContinue => with_ui w (setStep 2 (ui w))
  | ClickBack => with_ui w (setStep 1 (ui w))
  | ClickGenerate => handleGenerate_call w
  | GatewaySettles outcome => handleGenerate_settle outcome w
  | ClickSave now => saveProfile now w
  | ClickExportJSON now => handleExportJSON now w
  | ClickExportText now => handleExportText now w
  | ClickStartOver => with_ui w (handleReset (ui w))
  end.

(** An event that finds its control missing or disabled changes nothing.
    The setter calls of one handler take effect together: no event is
    delivered between them. *)
Definition handle (e : Event) (w : World) : World :=
  if enabled e w then fire e w else w.

Definition run (es : list Event) (w : World) : World :=
  fold_left (fun w e => handle e w) es w.

(** The states the component can be in: mounted for some user over some
    storage, then any events. *)
Inductive reachable : World -> Prop :=
| reach_mount u st : reachable (mount u st)
| reach_step e w : reachable w -> reachable (handle e w).

(** ** Notions of the specification *)

(** The spec's wording for a field that carries no text: empty, or white
    space only. *)
Definition blank (s : jsstring) : bool := forallb is_js_space s.

(** What the component holds as saved profiles once mounted for [u] over
    the storage [st]: the store's [load]. *)
Definition load (u : User) (st : gmap jsstring jsstring) : JValue :=
  savedProfiles (ui (mount u st)).

(** The section headers of the report. *)
Definition section_headers : list jsstring :=
  [lit "CUSTOMER PROFILE REPORT"; lit "BUSINESS INFORMATION";
   lit "CUSTOMER PROFILE"; lit "DEMOGRAPHICS"; lit "PSYCHOGRAPHICS";
   lit "PAIN POINTS"; lit "MOTIVATIONS"; lit "GOALS";
   lit "COMMUNICATION CHANNELS"; lit "BUYING BEHAVIOR"].

(** [occurs_in_order hs t]: the strings of [hs] occur in [t] one after the
    other, without overlap. *)
Fixpoint occurs_in_order (hs : list jsstring) (t : jsstring) : Prop :=
  match hs with
  | [] => True
  | h :: hs' => exists a b, t = a ++ h ++ b /\ occurs_in_order hs' b
  end.

(** The records written by the saves among the events [es], from the state
    [w] on: one for every click on the save control that finds it enabled. *)
Fixpoint saved_by (es : list Event) (w : World) : list JValue :=
  match es with
  | [] => []
  | e :: es' =>
      match e, customerProfile (ui w) with
      | ClickSave now, Some p =>
          if enabled e w
          then profileData now (ui w) p :: saved_by es' (handle e w)
          else saved_by es' (handle e w)
      | _, _ => saved_by es' (handle e w)
      end
  end.

(** The step is 1, 2 or 3; a profile is held exactly on step 3; a call is
    in flight exactly while [isGenerating], and never on step 3; no save is
    ever left running. *)
Record wizard_inv (w : World) : Prop := {
  inv_step : step (ui w) = 1 \/ step (ui w) = 2 \/ step (ui w) = 3;
  inv_profile : is_Some (customerProfile (ui w)) <-> step (ui w) = 3;
  inv_inflight : inflight w = if isGenerating (ui w) then 1 else 0;
  inv_idle : step (ui w) = 3 -> isGenerating (ui w) = false;
  inv_saving : isSaving (ui w) = false
}.

(** *** Reading the typed records back from objects *)

(** [v[k]] on an object. *)
Definition get_prop (k : jsstring) (v : JValue) : option JValue :=
  match v with
  | JObject members =>
      match find (fun kv => bool_decide (fst kv = k)) members with
      | Some kv => Some (snd kv)
      | None => None
      end
  | _ => None
  end.

Definition as_string (v : JValue) : option jsstring :=
  match v with
  | JString s => Some s
  | _ => None
  end.

Fixpoint all_strings (l : list JValue) : option (list jsstring) :=
  match l with
  | [] => Some []
  | v :: r =>
      match as_string v, all_strings r with
      | Some s, Some ss => Some (s :: ss)
      | _, _ => None
      end
  end.

Definition as_strings (v : JValue) : option (list jsstring) :=
  match v with
  | JArray items => all_strings items
  | _ => None
  end.

Definition string_prop (k : string) (v : JValue) : option jsstring :=
  get_prop (lit k) v ≫= as_string.

Definition strings_prop (k : string) (v : JValue) : option (list jsstring) :=
  get_prop (lit k) v ≫= as_strings.

Definition demographics_of_json (v : JValue) : option Demographics :=
  a ← string_prop "ageRange" v; g ← string_prop "gender" v;
  l ← string_prop "location" v; i ← string_prop "income" v;
  e ← string_prop "education" v;
  Some {| ageRange := a; gender := g; location := l; income := i; education := e |}.

Definition psychographics_of_json (v : JValue) : option Psychographics :=
  a ← strings_prop "values" v; i ← strings_prop "interests" v;
  l ← string_prop "lifestyle" v; p ← string_prop "personality" v;
  Some {| values := a; interests := i; lifestyle := l; personality := p |}.

Definition buyingBehavior_of_json (v : JValue) : option BuyingBehavior :=
  d ← strings_prop "decisionFactors" v; p ← string_prop "purchaseProcess" v;
  b ← string_prop "budget" v;
  Some {| decisionFactors := d; purchaseProcess := p; budget := b |}.

Definition profile_of_json (v : JValue) : option CustomerProfile :=
  d ← get_prop (lit "demographics") v ≫= demographics_of_json;
  p ← get_prop (lit "psychographics") v ≫= psychographics_of_json;
  pp ← strings_prop "painPoints" v; m ← strings_prop "motivations" v;
  g ← strings_prop "goals" v; c ← strings_prop "communicationChannels" v;
  b ← get_prop (lit "buyingBehavior") v ≫= buyingBehavior_of_json;
  Some {| demographics := d; psychographics := p; painPoints := pp;
          motivations := m; goals := g; communicationChannels := c;
          buyingBehavior := b |}.

(** The four inputs, as the [businessInfo] object of the export carries
    them. *)
Module BusinessInfo.
Record t : Type := {
  visionStatement : jsstring;
  missionStatement : jsstring;
  businessDescription : jsstring;
  targetMarket : jsstring
}.
End BusinessInfo.

Definition businessInfo_of (s : State) : BusinessInfo.t :=
  {| BusinessInfo.visionStatement := visionStatement s;
     BusinessInfo.missionStatement := missionStatement s;
     BusinessInfo.businessDescription := businessDescription s;
     BusinessInfo.targetMarket := targetMarket s |}.

Definition businessInfo_of_json (v : JValue) : option BusinessInfo.t :=
  a ← string_prop "visionStatement" v; b ← string_prop "missionStatement" v;
  c ← string_prop "businessDescription" v; d ← string_prop "targetMarket" v;
  Some {| BusinessInfo.visionStatement := a; BusinessInfo.missionStatement := b;
          BusinessInfo.businessDescription := c; BusinessInfo.targetMarket := d |}.

(** *** The JSON values of the round trip *)

(** The values the round trip is stated for: no numbers (their text is
    not normalised here), and objects whose keys are pairwise distinct and
    none of them an array index, so that the property order is the order
    of creation. *)
Fixpoint plain_keys (ks : list jsstring) : bool :=
  match ks with
  | [] => true
  | k :: r =>
      match array_index k with
      | Some _ => false
      | None => negb (existsb (fun k' => bool_decide (k = k')) r) && plain_keys r
      end
  end.

Fixpoint plain (v : JValue) : bool :=
  match v with
  | JNull | JBool _ | JString _ => true
  | JNumber _ => false
  | JArray items => forallb plain items
  | JObject members =>
      forallb (fun kv => plain (snd kv)) members && plain_keys (map fst members)
  end.

(** ** Sample data *)

Definition sample_user : User :=
  {| user_id := lit "u-1"; email := lit "ada@example.org"; displayName := None |}.


Definition sample_profile : CustomerProfile :=
  {| demographics :=
       {| ageRange := lit "25-40"; gender := lit "All"; location := lit "Urban";
          income := lit "Middle"; education := lit "College" |};
     psychographics :=
       {| values := [lit "Creativity"; lit "Growth"];
          interests := [lit "Design"];
          lifestyle := lit "Busy"; personality := lit "Curious" |};
     painPoints := [lit "No time"; lit "Tight budget"];
     motivations := [lit "Stand out"];
     goals := [];
     communicationChannels := [lit "Email"; lit "Instagram"];
     buyingBehavior :=
       {| decisionFactors := [lit "Price"; lit "Quality"];
          purchaseProcess := lit "Research online";
          budget := lit "$500-$2000  " |} |}.

Definition sample_clock : Clock :=
  {| now_ms := lit "1700000000000"; localeDate := lit "11/14/2023";
     isoDate := lit "2023-11-14T22:13:20.000Z" |}.


(** Mounted over an empty storage, a template loaded: the wizard is on
    step 2 with all four fields filled in. *)
Definition sample_details : World :=
  run [OpenChangeTemplates true; ClickTemplate 0] (mount sample_user ∅).

(** Then the trigger clicked: a call is in flight. *)
Definition sample_waiting : World := run [ClickGenerate] sample_details.

(** Then the provider has answered: the wizard shows the result. *)
Definition sample_result : World :=
  run [GatewaySettles (Some sample_profile)] sample_waiting.

(** The scenario of the spec: the four fields typed in by hand, the target
    market left empty, and the provider's answer. *)
Definition scenario_result : World :=
  run [ChangeVision (lit "To inspire creativity");
       ChangeMission (lit "We help people express themselves");
       ClickContinue;
       ChangeBusiness (lit "Design agency for startups");
       ClickGenerate;
       GatewaySettles (Some sample_profile)]
    (mount sample_user ∅).

Definition blank_mission_world : World :=
  run [ChangeVision (lit "To inspire creativity"); ChangeMission [32; 10; 9; 160]%N]
    (mount sample_user ∅).

(** ** Notions of the proofs *)

Definition ws_only (g : jsstring) : Prop := forallb is_json_ws g = true.

Definition pre_ws (gap indent : jsstring) : jsstring :=
  if truthy gap then 10%N :: indent else [].

Definition member_text (gap indent : jsstring) (kv : jsstring * JValue) : jsstring :=
  quote (fst kv) ++ [58%N] ++ (if truthy gap then [32%N] else [])
    ++ serialize gap indent (snd kv).

(** Read back with enough fuel, the text of [v] gives [v] and leaves what
    follows the text. *)
Definition reads_back (v : JValue) : Prop :=
  forall gap indent, ws_only gap -> ws_only indent ->
  exists f0, forall fuel rest, (f0 <= fuel)%nat ->
    parse_value fuel (serialize gap indent v ++ rest) = Some (v, rest).

(** A string with a character that [trim] keeps. *)
Definition solid_end (t : jsstring) : Prop := trimEnd t <> [].

(** ** Further parts of the component *)

(** The cards of the wizard: [step === 1 && ...], [step === 2 && ...] and
    [step === 3 && customerProfile && ...]. *)
Inductive Card : Type := IntakeCard | DetailsCard | ResultCard.

(** The cards the component renders under its header, top to bottom. *)
Definition cards (s : State) : list Card :=
  (if (step s =? 1)%nat then [IntakeCard] else [])
  ++ (if (step s =? 2)%nat then [DetailsCard] else [])
  ++ (if (step s =? 3)%nat && bool_decide (is_Some (customerProfile s))
      then [ResultCard] else []).



(** [ends_with suffix t]: the text [t] ends with [suffix]. *)
Definition ends_with (suffix t : jsstring) : Prop := exists body, t = body ++ suffix.

(** A string without a line feed. *)
Definition no_lf (s : jsstring) : bool := forallb (fun c => negb (c =? 10)%N) s.

(** ** The session gate: [App] *)



















(** ** The earlier revision of the component *)

(** The component before templates, saved profiles and the text export: the
    same interfaces, seven hooks, [handleGenerate], [handleExport] and
    [handleReset]. *)
Module Rev1.

Record State : Type := {
  step : nat;
  visionStatement : jsstring;
  missionStatement : jsstring;
  businessDescription : jsstring;
  targetMarket : jsstring;
  isGenerating : bool;
  customerProfile : option CustomerProfile
}.

Definition initial_state : State := {|
  step := 1;
  visionStatement := [];
  missionStatement := [];
  businessDescription := [];
  targetMarket := [];
  isGenerating := false;
  customerProfile := None
|}.

Definition setStep (n : nat) (s : State) : State :=
  {| step := n; visionStatement := visionStatement s;
     missionStatement := missionStatement s;
     businessDescription := businessDescription s;
     targetMarket := targetMarket s; isGenerating := isGenerating s;
     customerProfile := customerProfile s |}.

Definition setVisionStatement (v : jsstring) (s : State) : State :=
  {| step := step s; visionStatement := v;
     missionStatement := missionStatement s;
     businessDescription := businessDescription s;
     targetMarket := targetMarket s; isGenerating := isGenerating s;
     customerProfile := customerProfile s |}.

Definition setMissionStatement (v : jsstring) (s : State) : State :=
  {| step := step s; visionStatement := visionStatement s;
     missionStatement := v;
     businessDescription := businessDescription s;
     targetMarket := targetMarket s; isGenerating := isGenerating s;
     customerProfile := customerProfile s |}.

Definition setBusinessDescription (v : jsstring) (s : State) : State :=
  {| step := step s; visionStatement := visionStatement s;
     missionStatement := missionStatement s;
     businessDescription := v;
     targetMarket := targetMarket s; isGenerating := isGenerating s;
     customerProfile := customerProfile s |}.

Definition setTargetMarket (v : jsstring) (s : State) : State :=
  {| step := step s; visionStatement := visionStatement s;
     missionStatement := missionStatement s;
     businessDescription := businessDescription s;
     targetMarket := v; isGenerating := isGenerating s;
     customerProfile := customerProfile s |}.

Definition setIsGenerating (b : bool) (s : State) : State :=
  {| step := step s; visionStatement := visionStatement s;
     missionStatement := missionStatement s;
     businessDescription := businessDescription s;
     targetMarket := targetMarket s; isGenerating := b;
     customerProfile := customerProfile s |}.

Definition setCustomerProfile (p : option CustomerProfile) (s : State) : State :=
  {| step := step s; visionStatement := visionStatement s;
     missionStatement := missionStatement s;
     businessDescription := businessDescription s;
     targetMarket := targetMarket s; isGenerating := isGenerating s;
     customerProfile := p |}.

(** The component and what it acts on: its hooks, the calls in flight, the
    prompts sent, the files offered for download and the console log. *)
Record World : Type := {
  ui : State;
  inflight : nat;
  requests : list jsstring;
  downloads : list Download;
  console : list jsstring
}.

Definition initial_world : World :=
  {| ui := initial_state; inflight := 0; requests := []; downloads := [];
     console := [] |}.

Definition with_ui (w : World) (s : State) : World :=
  {| ui := s; inflight := inflight w; requests := requests w;
     downloads := downloads w; console := console w |}.

Definition prompt (s : State) : jsstring :=
  nl ++ lit "        Based on the following business information, create a detailed ideal customer profile:"
  ++ nl ++ lit "        "
  ++ nl ++ lit "        Vision Statement: " ++ visionStatement s
  ++ nl ++ lit "        Mission Statement: " ++ missionStatement s
  ++ nl ++ lit "        Business Description: " ++ businessDescription s
  ++ nl ++ lit "        Target Market: " ++ targetMarket s
  ++ nl ++ lit "        "
  ++ nl ++ lit "        Please analyze these statements and create a comprehensive customer profile that includes demographics, psychographics, pain points, motivations, goals, communication channels, and buying behavior."
  ++ nl ++ lit "      ".

Definition handleGenerate_call (w : World) : World :=
  {| ui := setIsGenerating true (ui w); inflight := S (inflight w);
     requests := requests w ++ [prompt (ui w)];
     downloads := downloads w; console := console w |}.

Definition handleGenerate_settle (outcome : option CustomerProfile) (w : World) : World :=
  let w1 :=
    match outcome with
    | Some object =>
        with_ui w (setStep 3 (setCustomerProfile (Some object) (ui w)))
    | None =>
        {| ui := ui w; inflight := inflight w; requests := requests w;
           downloads := downloads w;
           console := console w ++ [lit "Error generating customer profile:"] |}
    end in
  {| ui := setIsGenerating false (ui w1); inflight := pred (inflight w1);
     requests := requests w1; downloads := downloads w1;
     console := console w1 |}.

Definition exportData (now : Clock) (s : State) (p : CustomerProfile) : JValue :=
  JObject [(lit "generatedAt", JString (isoDate now));
           (lit "businessInfo",
             JObject [(lit "visionStatement", JString (visionStatement s));
                      (lit "missionStatement", JString (missionStatement s));
                      (lit "businessDescription", JString (businessDescription s));
                      (lit "targetMarket", JString (targetMarket s))]);
           (lit "customerProfile", profile_json p)].

Definition handleExport (now : Clock) (w : World) : World :=
  match customerProfile (ui w) with
  | None => w
  | Some p =>
      {| ui := ui w; inflight := inflight w; requests := requests w;
         downloads :=
           downloads w
           ++ [{| filename := lit "customer-profile.json";
                  mime := lit "application/json";
                  content := JSON_stringify (exportData now (ui w) p) 2 |}];
         console := console w |}
  end.

Definition handleReset (s : State) : State :=
  setCustomerProfile None
    (setTargetMarket []
       (setBusinessDescription []
          (setMissionStatement []
             (setVisionStatement []
                (setStep 1 s))))).

Inductive Event : Type :=
| ChangeVision (v : jsstring)
| ChangeMission (v : jsstring)
| ChangeBusiness (v : jsstring)
| ChangeTarget (v : jsstring)
| ClickContinue
| ClickBack
| ClickGenerate
| GatewaySettles (outcome : option CustomerProfile)
| ClickExport (now : Clock)
| ClickStartOver.

Definition continue_disabled (s : State) : bool :=
  negb (truthy (trim (visionStatement s)))
  || negb (truthy (trim (missionStatement s))).

Definition generate_disabled (s : State) : bool :=
  negb (truthy (trim (businessDescription s))) || isGenerating s.

Definition result_shown (s : State) : bool :=
  (step s =? 3)%nat && bool_decide (is_Some (customerProfile s)).

Definition enabled (e : Event) (w : World) : bool :=
  let s := ui w in
  match e with
  | ChangeVision _ | ChangeMission _ => (step s =? 1)%nat
  | ClickContinue => (step s =? 1)%nat && negb (continue_disabled s)
  | ChangeBusiness _ | ChangeTarget _ | ClickBack => (step s =? 2)%nat
  | ClickGenerate => (step s =? 2)%nat && negb (generate_disabled s)
  | GatewaySettles _ => (0 <? inflight w)%nat
  | ClickExport _ | ClickStartOver => result_shown s
  end.

Definition fire (e : Event) (w : World) : World :=
  match e with
  | ChangeVision v => with_ui w (setVisionStatement v (ui w))
  | ChangeMission v => with_ui w (setMissionStatement v (ui w))
  | ChangeBusiness v => with_ui w (setBusinessDescription v (ui w))
  | ChangeTarget v => with_ui w (setTargetMarket v (ui w))
  | ClickContinue => with_ui w (setStep 2 (ui w))
  | ClickBack => with_ui w (setStep 1 (ui w))
  | ClickGenerate => handleGenerate_call w
  | GatewaySettles outcome => handleGenerate_settle outcome w
  | ClickExport now => handleExport now w
  | ClickStartOver => with_ui w (handleReset (ui w))
  end.

Definition handle (e : Event) (w : World) : World :=
  if enabled e w then fire e w else w.

Definition run (es : list Event) (w : World) : World :=
  fold_left (fun w e => handle e w) es w.

Inductive reachable : World -> Prop :=
| reach_initial : reachable initial_world
| reach_step e w : reachable w -> reachable (handle e w).

End Rev1.

(** What the later revision's state is in terms of the earlier one: the
    three new hooks, the user and the storage are dropped. *)
Definition forget_ui (s : State) : Rev1.State :=
  {| Rev1.step := step s;
     Rev1.visionStatement := visionStatement s;
     Rev1.missionStatement := missionStatement s;
     Rev1.businessDescription := businessDescription s;
     Rev1.targetMarket := targetMarket s;
     Rev1.isGenerating := isGenerating s;
     Rev1.customerProfile := customerProfile s |}.

Definition forget (w : World) : Rev1.World :=
  {| Rev1.ui := forget_ui (ui w); Rev1.inflight := inflight w;
     Rev1.requests := requests w; Rev1.downloads := downloads w;
     Rev1.console := console w |}.

(** The earlier revision's events in the later one. *)
Definition lift (e : Rev1.Event) : Event :=
  match e with
  | Rev1.ChangeVision v => ChangeVision v
  | Rev1.ChangeMission v => ChangeMission v
  | Rev1.ChangeBusiness v => ChangeBusiness v
  | Rev1.ChangeTarget v => ChangeTarget v
  | Rev1.ClickContinue => ClickContinue
  | Rev1.ClickBack => ClickBack
  | Rev1.ClickGenerate => ClickGenerate
  | Rev1.GatewaySettles outcome => GatewaySettles outcome
  | Rev1.ClickExport now => ClickExportJSON now
  | Rev1.ClickStartOver => ClickStartOver
  end.

(** ** Notions of the further properties *)

(** The schema a property list declares for a key: the first declaration. *)
Fixpoint schema_of (props : list (jsstring * Schema)) (k : jsstring) : option Schema :=
  match props with
  | [] => None
  | (k', sub) :: props' => if bool_decide (k' = k) then Some sub else schema_of props' k
  end.

(** A state whose three required inputs all carry text. *)
Definition filled (s : State) : bool :=
  negb (blank (visionStatement s)) && negb (blank (missionStatement s))
  && negb (blank (businessDescription s)).

(** What holds of the requests in every reachable state: on step 2 the
    two statements are not blank, and every prompt sent was built from
    inputs that were all filled in. *)
Record request_inv (w : World) : Prop := {
  req_inv_details :
    step (ui w) = 2 ->
    blank (visionStatement (ui w)) = false
    /\ blank (missionStatement (ui w)) = false;
  req_inv_sent :
    Forall (fun r => exists s, r = prompt s /\ filled s = true) (requests w)
}.

(** ** Further sample data *)




(** A run of the earlier revision up to its result. *)
Definition rev1_sample : Rev1.World :=
  Rev1.run [Rev1.ChangeVision (lit "To inspire creativity");
            Rev1.ChangeMission (lit "We help people express themselves");
            Rev1.ClickContinue;
            Rev1.ChangeBusiness (lit "Design agency for startups");
            Rev1.ClickGenerate;
            Rev1.GatewaySettles (Some sample_profile)]
    Rev1.initial_world.

(** A conforming reply with one property more than the schema declares. *)
Definition reply_with_note : JValue :=
  match profile_json sample_profile with
  | JObject members => JObject (members ++ [(lit "note", JString (lit "draft"))])
  | v => v
  end.

(** * Part II: properties *)

(** ** Facts about [trim] *)

Lemma trimStart_blank s : blank s = true -> trimStart s = [].
Proof.
  induction s as [|c r IH]; simpl; [reflexivity|].
  intros H. apply andb_true_iff in H as [Hc Hr]. rewrite Hc. auto.
Qed.

Lemma trimStart_nil_blank s : trimStart s = [] -> blank s = true.
Proof.
  induction s as [|c r IH]; simpl; [reflexivity|].
  destruct (is_js_space c); [auto | discriminate].
Qed.

Lemma trimStart_app_blank a b : blank a = true -> trimStart (a ++ b) = trimStart b.
Proof.
  induction a as [|c r IH]; simpl; [reflexivity|].
  intros H. apply andb_true_iff in H as [Hc Hr]. rewrite Hc. auto.
Qed.

Lemma trimStart_solid c r : is_js_space c = false -> trimStart (c :: r) = c :: r.
Proof. intros H. simpl. now rewrite H. Qed.

Lemma trimStart_app_solid a b :
  trimStart a <> [] -> trimStart (a ++ b) = trimStart a ++ b.
Proof.
  induction a as [|c r IH]; simpl; [congruence|].
  destruct (is_js_space c); auto.
Qed.

Lemma blank_rev s : blank (rev s) = blank s.
Proof.
  unfold blank. induction s as [|c r IH]; simpl; [reflexivity|].
  rewrite forallb_app, IH. simpl. rewrite andb_true_r. apply andb_comm.
Qed.

Lemma trimEnd_app_solid a b :
  trimEnd b <> [] -> trimEnd (a ++ b) = a ++ trimEnd b.
Proof.
  unfold trimEnd. intros H. rewrite rev_app_distr, trimStart_app_solid.
  - now rewrite rev_app_distr, rev_involutive.
  - intros E. apply H. now rewrite E.
Qed.

Lemma trimEnd_snoc_solid a c b :
  is_js_space c = false -> blank b = true -> trimEnd (a ++ c :: b) = a ++ [c].
Proof.
  intros Hc Hb. unfold trimEnd.
  replace (a ++ c :: b) with ((a ++ [c]) ++ b) by now rewrite <- app_assoc.
  rewrite rev_app_distr, trimStart_app_blank by now rewrite blank_rev.
  rewrite rev_app_distr. simpl. rewrite Hc. simpl.
  now rewrite rev_involutive.
Qed.

Lemma trimEnd_blank s : blank s = true -> trimEnd s = [].
Proof.
  intros H. unfold trimEnd. rewrite trimStart_blank; [reflexivity|].
  now rewrite blank_rev.
Qed.

Lemma trimEnd_nil_blank s : trimEnd s = [] -> blank s = true.
Proof.
  unfold trimEnd. intros H. rewrite <- blank_rev. apply trimStart_nil_blank.
  apply (f_equal (@rev N)) in H. now rewrite rev_involutive in H.
Qed.

Lemma blank_trimStart s : blank (trimStart s) = true -> blank s = true.
Proof.
  induction s as [|c r IH]; simpl; [reflexivity|].
  destruct (is_js_space c) eqn:E; simpl; [auto|].
  rewrite E. discriminate.
Qed.

(** [!s.trim()] holds exactly for the blank strings. *)
Lemma trim_falsy_iff_blank s : truthy (trim s) = false <-> blank s = true.
Proof.
  unfold trim. split.
  - intros H. destruct (trimEnd (trimStart s)) eqn:E; [|discriminate].
    apply blank_trimStart, trimEnd_nil_blank, E.
  - intros H. now rewrite (trimStart_blank _ H).
Qed.

(** ** The wizard *)

Lemma reachable_run es w : reachable w -> reachable (run es w).
Proof.
  revert w. induction es as [|e es IH]; simpl; intros w H; [exact H|].
  apply IH. now constructor.
Qed.

(** *** Handlers and the hooks they leave alone *)

Lemma loadSavedProfiles_wizard w :
  let s := ui w in let s' := ui (loadSavedProfiles w) in
  step s' = step s /\ customerProfile s' = customerProfile s
  /\ isGenerating s' = isGenerating s /\ isSaving s' = isSaving s
  /\ inflight (loadSavedProfiles w) = inflight w.
Proof.
  unfold loadSavedProfiles. simpl.
  destruct (storage w !! storage_key (user w)) as [saved|]; [|tauto].
  destruct (truthy saved); [|tauto].
  destruct (JSON_parse saved); simpl; tauto.
Qed.

Lemma saveProfile_wizard now w :
  let s := ui w in let s' := ui (saveProfile now w) in
  isSaving s = false ->
  step s' = step s /\ customerProfile s' = customerProfile s
  /\ isGenerating s' = isGenerating s /\ isSaving s' = false
  /\ inflight (saveProfile now w) = inflight w.
Proof.
  unfold saveProfile. simpl. intros Hs.
  destruct (customerProfile (ui w)) eqn:Hp; [|rewrite Hp; tauto].
  destruct (spread (savedProfiles (ui w))); simpl; rewrite Hp; tauto.
Qed.

Lemma handleExportJSON_ui now w : ui (handleExportJSON now w) = ui w.
Proof. unfold handleExportJSON. now destruct (customerProfile (ui w)). Qed.

Lemma handleExportText_ui now w : ui (handleExportText now w) = ui w.
Proof. unfold handleExportText. now destruct (customerProfile (ui w)). Qed.

Lemma handleExportJSON_inflight now w : inflight (handleExportJSON now w) = inflight w.
Proof. unfold handleExportJSON. now destruct (customerProfile (ui w)). Qed.

Lemma handleExportText_inflight now w : inflight (handleExportText now w) = inflight w.
Proof. unfold handleExportText. now destruct (customerProfile (ui w)). Qed.

(** *** The invariant *)

Lemma wizard_inv_mount u st : wizard_inv (mount u st).
Proof.
  unfold mount.
  pose proof (loadSavedProfiles_wizard (fresh u st)) as (H1 & H2 & H3 & H4 & H5).
  cbv zeta in *. simpl in *.
  split; rewrite ?H1, ?H2, ?H3, ?H4, ?H5.
  - now left.
  - split; [intros [x Hx]; discriminate | discriminate].
  - reflexivity.
  - discriminate.
  - reflexivity.
Qed.

Lemma result_shown_step s : result_shown s = true -> step s = 3.
Proof.
  unfold result_shown. intros H. apply andb_true_iff in H as [H _].
  now apply Nat.eqb_eq in H.
Qed.

Lemma wizard_inv_handle e w : wizard_inv w -> wizard_inv (handle e w).
Proof.
  intros [Hstep Hprof Hfl Hidle Hsav]. unfold handle.
  destruct (enabled e w) eqn:En; [|now split].
  destruct e; simpl in En |- *;
    try (apply andb_true_iff in En as [En En2]);
    try (apply Nat.eqb_eq in En);
    try (split; simpl; solve [auto | tauto]).
  - (* template card *)
    apply andb_true_iff in En as [En _]. apply Nat.eqb_eq in En.
    destruct (EXAMPLE_TEMPLATES !! i); [|now split].
    split; simpl; auto.
    + split; [intros H; apply Hprof in H; lia | discriminate].
    + discriminate.
  - (* continue *)
    split; simpl; auto.
    + split; [intros H; apply Hprof in H; lia | discriminate].
    + discriminate.
  - (* back *)
    split; simpl; auto.
    + split; [intros H; apply Hprof in H; lia | discriminate].
    + discriminate.
  - (* generate *)
    apply negb_true_iff, orb_false_iff in En2 as [_ Hg].
    split; simpl; auto.
    + rewrite Hfl, Hg. reflexivity.
    + intros H. lia.
  - (* the call settles *)
    apply Nat.ltb_lt in En.
    assert (Hg : isGenerating (ui w) = true)
      by (destruct (isGenerating (ui w)); [reflexivity | lia]).
    rewrite Hg in Hfl.
    destruct outcome as [object|]; split; simpl; auto; try (rewrite Hfl; reflexivity).
    split; [reflexivity | eauto].
  - (* save *)
    pose proof (saveProfile_wizard now w Hsav) as (H1 & H2 & H3 & H4 & H5).
    cbv zeta in *. split; rewrite ?H1, ?H2, ?H3, ?H4, ?H5; auto.
  - split; rewrite ?handleExportJSON_ui, ?handleExportJSON_inflight; auto.
  - split; rewrite ?handleExportText_ui, ?handleExportText_inflight; auto.
  - (* start over *)
    split; simpl; auto.
    split; [intros [x Hx]; discriminate | discriminate].
Qed.

Lemma reachable_inv w : reachable w -> wizard_inv w.
Proof.
  induction 1 as [u st | e w _ IH].
  - apply wizard_inv_mount.
  - now apply wizard_inv_handle.
Qed.

(** *** The sample states are reachable *)

Lemma sample_details_reachable : reachable sample_details.
Proof. apply reachable_run, reach_mount. Qed.

Lemma sample_waiting_reachable : reachable sample_waiting.
Proof. apply reachable_run, sample_details_reachable. Qed.

Lemma sample_result_reachable : reachable sample_result.
Proof. apply reachable_run, sample_waiting_reachable. Qed.

Lemma scenario_result_reachable : reachable scenario_result.
Proof. apply reachable_run, reach_mount. Qed.

(** *** Generation: success and failure *)

Lemma strings_conform l : forallb (conforms SString) (map JString l) = true.
Proof. induction l as [|x l IH]; [reflexivity | exact IH]. Qed.

(** Every object of type [CustomerProfile] satisfies the schema of the
    request. *)
Lemma profile_json_conforms p : conforms profile_schema (profile_json p) = true.
Proof.
  unfold profile_schema, profile_json, string_array, strings_json.
  cbn -[forallb conforms lit].
  cbn [forallb]. rewrite ?andb_true_r.
  repeat (apply andb_true_intro; split); try reflexivity;
    cbn; rewrite ?strings_conform; reflexivity.
Qed.

Lemma settle_inputs outcome w :
  let s := ui w in let s' := ui (handleGenerate_settle outcome w) in
  visionStatement s' = visionStatement s
  /\ missionStatement s' = missionStatement s
  /\ businessDescription s' = businessDescription s
  /\ targetMarket s' = targetMarket s.
Proof. destruct outcome; simpl; tauto. Qed.

(** C1. When the generation call that is in flight resolves with an object
    of the declared shape, the wizard is on step 3 (Result) afterwards and
    holds exactly that object; the trigger's busy flag is cleared and the
    four inputs are untouched.  The call is sent from step 2 (Details); the
    statement holds wherever the wizard stands when the answer arrives. *)
Theorem generation_success_shows_result (w : World) (object : CustomerProfile) :
  (0 < inflight w)%nat ->
  let w' := handle (GatewaySettles (Some object)) w in
  conforms profile_schema (profile_json object) = true
  /\ step (ui w') = 3
  /\ customerProfile (ui w') = Some object
  /\ isGenerating (ui w') = false
  /\ visionStatement (ui w') = visionStatement (ui w)
  /\ missionStatement (ui w') = missionStatement (ui w)
  /\ businessDescription (ui w') = businessDescription (ui w)
  /\ targetMarket (ui w') = targetMarket (ui w).
Proof.
  intros Hfl w'. subst w'. unfold handle. simpl enabled.
  apply Nat.ltb_lt in Hfl. rewrite Hfl.
  split; [apply profile_json_conforms|]. simpl. tauto.
Qed.

Lemma generation_success_shows_result_witness :
  step (ui sample_waiting) = 2
  /\ step (ui (handle (GatewaySettles (Some sample_profile)) sample_waiting)) = 3
  /\ customerProfile (ui (handle (GatewaySettles (Some sample_profile)) sample_waiting))
     = Some sample_profile.
Proof.
  split; [reflexivity|].
  assert (H : (0 < inflight sample_waiting)%nat) by (vm_compute; lia).
  destruct (generation_success_shows_result sample_waiting sample_profile H)
    as (_ & H3 & Hp & _).
  split; [exact H3 | exact Hp].
Defined.

(** The whole of [handleGenerate] from step 2, nothing happening in
    between: the prompt built from the four inputs goes out, and the answer
    moves the wizard to step 3. *)
Lemma generate_from_details w object :
  step (ui w) = 2 -> enabled ClickGenerate w = true ->
  let w1 := handle ClickGenerate w in
  let w2 := handle (GatewaySettles (Some object)) w1 in
  requests w1 = requests w ++ [prompt (ui w)]
  /\ step (ui w1) = 2
  /\ step (ui w2) = 3 /\ customerProfile (ui w2) = Some object.
Proof.
  intros Hs En w1 w2. subst w1 w2.
  assert (E : handle ClickGenerate w = handleGenerate_call w)
    by (unfold handle; now rewrite En).
  rewrite E. unfold handle. simpl. auto.
Qed.

(** C2. When the generation call sent from step 2 (Details) is rejected
    while the wizard is still there, the wizard stays on step 2, holds no
    profile, and the busy flag is cleared with no call left in flight, so
    that the trigger is enabled again whenever the business description is
    not blank; the four inputs are untouched. *)
Theorem generation_failure_stays_in_details (w : World) :
  reachable w -> step (ui w) = 2 -> (0 < inflight w)%nat ->
  let w' := handle (GatewaySettles None) w in
  step (ui w') = 2
  /\ customerProfile (ui w') = None
  /\ isGenerating (ui w') = false
  /\ inflight w' = 0
  /\ enabled ClickGenerate w' = negb (blank (businessDescription (ui w)))
  /\ visionStatement (ui w') = visionStatement (ui w)
  /\ missionStatement (ui w') = missionStatement (ui w)
  /\ businessDescription (ui w') = businessDescription (ui w)
  /\ targetMarket (ui w') = targetMarket (ui w).
Proof.
  intros Hr Hs Hfl w'. subst w'.
  destruct (reachable_inv w Hr) as [_ Hprof Hinf _ _].
  assert (Hnone : customerProfile (ui w) = None).
  { destruct (customerProfile (ui w)) eqn:E; [|reflexivity].
    assert (step (ui w) = 3) by (apply Hprof; eauto). lia. }
  assert (Hg : isGenerating (ui w) = true)
    by (destruct (isGenerating (ui w)); [reflexivity | lia]).
  rewrite Hg in Hinf.
  unfold handle. simpl enabled. apply Nat.ltb_lt in Hfl. rewrite Hfl.
  simpl. rewrite Hs, Hinf, Hnone. simpl.
  repeat split; try reflexivity.
  unfold generate_disabled. simpl. rewrite orb_false_r, negb_involutive.
  destruct (truthy (trim (businessDescription (ui w)))) eqn:E.
  - destruct (blank (businessDescription (ui w))) eqn:B; [|reflexivity].
    apply trim_falsy_iff_blank in B. congruence.
  - apply trim_falsy_iff_blank in E. now rewrite E.
Qed.

Lemma generation_failure_stays_in_details_witness :
  let w' := handle (GatewaySettles None) sample_waiting in
  step (ui w') = 2 /\ customerProfile (ui w') = None
  /\ isGenerating (ui w') = false /\ enabled ClickGenerate w' = true.
Proof.
  assert (H2 : step (ui sample_waiting) = 2) by reflexivity.
  assert (Hfl : (0 < inflight sample_waiting)%nat) by (vm_compute; lia).
  destruct (generation_failure_stays_in_details sample_waiting
              sample_waiting_reachable H2 Hfl) as (A & B & C & _ & D & _).
  split; [exact A|]. split; [exact B|]. split; [exact C|].
  rewrite D. reflexivity.
Defined.

(** A rejected attempt leaves all the hooks as they were before the click. *)
Lemma failed_attempt_restores_ui w :
  enabled ClickGenerate w = true ->
  ui (run [ClickGenerate; GatewaySettles None] w) = ui w.
Proof.
  intros En. simpl. unfold handle at 2. rewrite En. unfold handle. simpl.
  simpl in En. apply andb_true_iff in En as [_ En].
  apply negb_true_iff, orb_false_iff in En as [_ Hg].
  destruct (ui w); simpl in *. now subst.
Qed.

(** *** A profile is held on step 3 only *)

(** C3. In every state the component can reach, from its mount under any
    sequence of events, a profile is held only on step 3 (Result). *)
Theorem profile_held_only_in_result (w : World) :
  reachable w -> is_Some (customerProfile (ui w)) -> step (ui w) = 3.
Proof. intros Hr Hp. now apply (inv_profile w (reachable_inv w Hr)). Qed.

Lemma profile_held_only_in_result_witness :
  is_Some (customerProfile (ui sample_result)) /\ step (ui sample_result) = 3.
Proof.
  assert (H : is_Some (customerProfile (ui sample_result)))
    by (exists sample_profile; reflexivity).
  split; [exact H|].
  exact (profile_held_only_in_result sample_result sample_result_reachable H).
Defined.

(** The same along event sequences, and the converse: step 3 is only ever
    shown with a profile. *)
Lemma profile_iff_result u st es :
  let w := run es (mount u st) in
  is_Some (customerProfile (ui w)) <-> step (ui w) = 3.
Proof. apply inv_profile, reachable_inv, reachable_run, reach_mount. Qed.

(** At most one generation call is in flight. *)
Lemma single_call_in_flight w : reachable w -> (inflight w <= 1)%nat.
Proof.
  intros Hr. rewrite (inv_inflight w (reachable_inv w Hr)).
  destruct (isGenerating (ui w)); lia.
Qed.

(** *** Guards of the transitions *)

(** C4. When the vision statement or the mission statement is blank (empty
    or white space only), the continue control is disabled: clicking it
    changes nothing, so the wizard does not go from step 1 to step 2. *)
Theorem continue_blocked_when_blank (w : World) :
  blank (visionStatement (ui w)) = true \/ blank (missionStatement (ui w)) = true ->
  enabled ClickContinue w = false /\ handle ClickContinue w = w.
Proof.
  intros H.
  assert (En : enabled ClickContinue w = false).
  { simpl. unfold continue_disabled.
    destruct H as [H | H]; apply trim_falsy_iff_blank in H; rewrite H;
      simpl; rewrite ?orb_true_r; apply andb_false_r. }
  split; [exact En|]. unfold handle. now rewrite En.
Qed.

Lemma continue_blocked_when_blank_witness :
  step (ui blank_mission_world) = 1
  /\ step (ui (handle ClickContinue blank_mission_world)) = 1.
Proof.
  split; [reflexivity|].
  assert (H : blank (visionStatement (ui blank_mission_world)) = true
              \/ blank (missionStatement (ui blank_mission_world)) = true)
    by (right; reflexivity).
  destruct (continue_blocked_when_blank blank_mission_world H) as [_ E].
  rewrite E. reflexivity.
Defined.

(** With both statements filled in the control works. *)
Lemma continue_fires_when_filled w :
  step (ui w) = 1 ->
  blank (visionStatement (ui w)) = false ->
  blank (missionStatement (ui w)) = false ->
  step (ui (handle ClickContinue w)) = 2.
Proof.
  intros Hs Hv Hm. unfold handle. simpl. unfold continue_disabled.
  destruct (truthy (trim (visionStatement (ui w)))) eqn:Ev;
    [|apply trim_falsy_iff_blank in Ev; congruence].
  destruct (truthy (trim (missionStatement (ui w)))) eqn:Em;
    [|apply trim_falsy_iff_blank in Em; congruence].
  rewrite Hs. reflexivity.
Qed.

(** C5. In every reachable state, when the business description is blank
    (empty or white space only) or a generation call is in flight, the
    generate control is disabled: clicking it changes nothing, so no call
    is sent. *)
Theorem generate_blocked_when_blank_or_busy (w : World) :
  reachable w ->
  blank (businessDescription (ui w)) = true \/ (0 < inflight w)%nat ->
  enabled ClickGenerate w = false
  /\ handle ClickGenerate w = w
  /\ requests (handle ClickGenerate w) = requests w.
Proof.
  intros Hr H.
  assert (En : enabled ClickGenerate w = false).
  { simpl. unfold generate_disabled. destruct H as [H | H].
    - apply trim_falsy_iff_blank in H. rewrite H. apply andb_false_r.
    - rewrite (inv_inflight w (reachable_inv w Hr)) in H.
      destruct (isGenerating (ui w)); [|lia].
      rewrite orb_true_r. apply andb_false_r. }
  unfold handle. rewrite En. auto.
Qed.

Lemma generate_blocked_when_blank_or_busy_witness :
  enabled ClickGenerate sample_waiting = false
  /\ requests (handle ClickGenerate sample_waiting) = requests sample_waiting.
Proof.
  assert (H : blank (businessDescription (ui sample_waiting)) = true
              \/ (0 < inflight sample_waiting)%nat)
    by (right; vm_compute; lia).
  destruct (generate_blocked_when_blank_or_busy sample_waiting
              sample_waiting_reachable H) as (A & _ & B).
  split; [exact A | exact B].
Defined.

(** ** [JSON.parse] undoes [JSON.stringify] *)

(** *** Strings *)

Lemma hex_value_digit d : (d < 16)%N -> hex_value (hex_digit d) = Some d.
Proof.
  intros H.
  assert (E : (d = 0 \/ d = 1 \/ d = 2 \/ d = 3 \/ d = 4 \/ d = 5 \/ d = 6
              \/ d = 7 \/ d = 8 \/ d = 9 \/ d = 10 \/ d = 11 \/ d = 12
              \/ d = 13 \/ d = 14 \/ d = 15)%N) by lia.
  repeat (destruct E as [-> | E]; [reflexivity | idtac]). now subst.
Qed.

Lemma decode4_escape c :
  (c < 65536)%N ->
  decode4 (hex_digit (c / 4096)) (hex_digit (c / 256 mod 16))
    (hex_digit (c / 16 mod 16)) (hex_digit (c mod 16)) = Some c.
Proof.
  intros H. unfold decode4.
  rewrite !hex_value_digit.
  - f_equal. zify. Z.to_euclidean_division_equations. lia.
  - apply N.mod_lt. discriminate.
  - apply N.mod_lt. discriminate.
  - apply N.mod_lt. discriminate.
  - apply N.Div0.div_lt_upper_bound. exact H.
Qed.

Lemma parse_string_copy c t x rest :
  (c =? 34)%N = false -> (c =? 92)%N = false -> (c <? 32)%N = false ->
  parse_string t = Some (x, rest) ->
  parse_string (c :: t) = Some (c :: x, rest).
Proof. intros H1 H2 H3 Ht. simpl. now rewrite H1, H2, H3, Ht. Qed.

Lemma parse_string_simple e u t x rest :
  (e =? 117)%N = false -> simple_escape e = Some u ->
  parse_string t = Some (x, rest) ->
  parse_string (92%N :: e :: t) = Some (u :: x, rest).
Proof.
  intros H1 H2 Ht. cbn [parse_string].
  change (92 =? 34)%N with false. change (92 =? 92)%N with true.
  cbv iota. now rewrite H1, H2, Ht.
Qed.

Lemma parse_string_unicode c t x rest :
  (c < 65536)%N ->
  parse_string t = Some (x, rest) ->
  parse_string (unicode_escape c ++ t) = Some (c :: x, rest).
Proof.
  intros Hc Ht. unfold unicode_escape. cbn [app parse_string].
  change (92 =? 34)%N with false. change (92 =? 92)%N with true.
  change (117 =? 117)%N with true. cbv iota.
  now rewrite (decode4_escape c Hc), Ht.
Qed.

Lemma parse_string_control c t x rest :
  (c <? 32)%N = true ->
  parse_string t = Some (x, rest) ->
  parse_string (control_escape c ++ t) = Some (c :: x, rest).
Proof.
  intros Hc Ht. apply N.ltb_lt in Hc. unfold control_escape.
  destruct (c =? 8)%N eqn:E8;
    [apply N.eqb_eq in E8; subst; now apply parse_string_simple|].
  destruct (c =? 9)%N eqn:E9;
    [apply N.eqb_eq in E9; subst; now apply parse_string_simple|].
  destruct (c =? 10)%N eqn:E10;
    [apply N.eqb_eq in E10; subst; now apply parse_string_simple|].
  destruct (c =? 12)%N eqn:E12;
    [apply N.eqb_eq in E12; subst; now apply parse_string_simple|].
  destruct (c =? 13)%N eqn:E13;
    [apply N.eqb_eq in E13; subst; now apply parse_string_simple|].
  apply parse_string_unicode; [lia | exact Ht].
Qed.

(** A quoted string, read back after its opening quote, is the string. *)
Lemma parse_string_quote_body s rest :
  parse_string (quote_body s ++ 34%N :: rest) = Some (s, rest).
Proof.
  remember (length s) as n eqn:Hn.
  assert (Hle : (length s <= n)%nat) by lia. clear Hn.
  revert s Hle. induction n as [|n IH]; intros s Hle.
  - destruct s; [reflexivity | simpl in Hle; lia].
  - destruct s as [|c r]; [reflexivity|]. simpl in Hle.
    assert (Hr : parse_string (quote_body r ++ 34%N :: rest) = Some (r, rest))
      by (apply IH; lia).
    cbn [quote_body].
    destruct (c =? 34)%N eqn:E34.
    { apply N.eqb_eq in E34. subst c. rewrite <- app_assoc.
      now apply (parse_string_simple 34 34). }
    destruct (c =? 92)%N eqn:E92.
    { apply N.eqb_eq in E92. subst c. rewrite <- app_assoc.
      now apply (parse_string_simple 92 92). }
    destruct (c <? 32)%N eqn:E32.
    { rewrite <- app_assoc. now apply parse_string_control. }
    destruct (is_leading_surrogate c) eqn:El.
    { unfold is_leading_surrogate in El.
      apply andb_true_iff in El as [El1 El2].
      apply N.leb_le in El1, El2.
      destruct r as [|d r'].
      - apply parse_string_unicode; [lia | reflexivity].
      - destruct (is_trailing_surrogate d) eqn:Et.
        + unfold is_trailing_surrogate in Et.
          apply andb_true_iff in Et as [Et1 Et2].
          apply N.leb_le in Et1, Et2.
          cbn [app]. apply parse_string_copy; auto.
          apply parse_string_copy;
            [apply N.eqb_neq; lia | apply N.eqb_neq; lia | apply N.ltb_ge; lia |].
          apply IH. simpl in Hle. lia.
        + rewrite <- app_assoc. apply parse_string_unicode; [lia | exact Hr]. }
    destruct (is_trailing_surrogate c) eqn:Et.
    { unfold is_trailing_surrogate in Et.
      apply andb_true_iff in Et as [Et1 Et2]. apply N.leb_le in Et1, Et2.
      rewrite <- app_assoc. apply parse_string_unicode; [lia | exact Hr]. }
    cbn [app]. now apply parse_string_copy.
Qed.

(** *** Objects with plain keys *)

Lemma plain_keys_app_inv a k b :
  plain_keys (a ++ k :: b) = true ->
  existsb (fun k' => bool_decide (k' = k)) a = false
  /\ array_index k = None /\ plain_keys (a ++ b) = true.
Proof.
  induction a as [|x a IH]; simpl.
  - destruct (array_index k); [discriminate|]. intros H.
    apply andb_true_iff in H as [_ H]. auto.
  - destruct (array_index x); [discriminate|]. intros H.
    apply andb_true_iff in H as [Hx H].
    destruct (IH H) as (Ha & Hk & Hab).
    rewrite existsb_app in Hx. simpl in Hx.
    apply negb_true_iff, orb_false_iff in Hx as [Hxa Hxb].
    apply orb_false_iff in Hxb as [Hxk Hxb].
    repeat split; auto.
    + apply orb_false_iff. split; [|exact Ha].
      apply bool_decide_eq_false. apply bool_decide_eq_false in Hxk. congruence.
    + rewrite existsb_app, Hxa, Hxb. exact Hab.
Qed.

Lemma has_key_map k o :
  has_key k o = existsb (fun k' => bool_decide (k' = k)) (map fst o).
Proof. unfold has_key. induction o as [|x o IH]; simpl; congruence. Qed.

Lemma fold_obj_set_plain raw o :
  plain_keys (map fst o ++ map fst raw) = true ->
  fold_left obj_set raw o = o ++ raw.
Proof.
  revert o. induction raw as [|kv raw IH]; intros o H; simpl.
  - now rewrite app_nil_r.
  - simpl in H. pose proof (plain_keys_app_inv _ _ _ H) as (Hk & Hi & _).
    assert (E : obj_set o kv = o ++ [kv]).
    { unfold obj_set. now rewrite has_key_map, Hk, Hi. }
    rewrite E, IH.
    + now rewrite <- app_assoc.
    + rewrite map_app. simpl. now rewrite <- app_assoc.
Qed.

Lemma build_object_plain raw :
  plain_keys (map fst raw) = true -> build_object raw = raw.
Proof. intros H. unfold build_object. now rewrite fold_obj_set_plain. Qed.

(** *** White space *)

Lemma skip_ws_app g t : ws_only g -> skip_ws (g ++ t) = skip_ws t.
Proof.
  unfold ws_only. induction g as [|c g IH]; simpl; [reflexivity|].
  intros H. apply andb_true_iff in H as [Hc Hg]. rewrite Hc. auto.
Qed.

Lemma skip_ws_solid c t : is_json_ws c = false -> skip_ws (c :: t) = c :: t.
Proof. intros H. simpl. now rewrite H. Qed.

Lemma ws_only_app a b : ws_only a -> ws_only b -> ws_only (a ++ b).
Proof. unfold ws_only. intros Ha Hb. now rewrite forallb_app, Ha, Hb. Qed.

Lemma ws_only_spaces n : ws_only (repeat 32%N n).
Proof. unfold ws_only. induction n; [reflexivity | exact IHn]. Qed.

Lemma parse_value_skip fuel g t :
  ws_only g -> parse_value fuel (g ++ t) = parse_value fuel t.
Proof. intros H. destruct fuel; simpl; [reflexivity|]. now rewrite skip_ws_app. Qed.

Lemma parse_elements_skip fuel g t :
  ws_only g -> parse_elements fuel (g ++ t) = parse_elements fuel t.
Proof.
  intros H. destruct fuel; simpl; [reflexivity|]. now rewrite parse_value_skip.
Qed.

Lemma parse_members_skip fuel g t :
  ws_only g -> parse_members fuel (g ++ t) = parse_members fuel t.
Proof. intros H. destruct fuel; simpl; [reflexivity|]. now rewrite skip_ws_app. Qed.

(** *** The parser, one step at a time *)

Lemma parse_elements_S fuel s :
  parse_elements (S fuel) s =
  match parse_value fuel s with
  | None => None
  | Some (v, r) =>
      match skip_ws r with
      | [] => None
      | c :: r' =>
          if (c =? 44)%N then
            match parse_elements fuel r' with
            | Some (vs, rest) => Some (v :: vs, rest)
            | None => None
            end
          else if (c =? 93)%N then Some ([v], r')
          else None
      end
  end.
Proof. reflexivity. Qed.

(** One member: the quoted key, the colon, white space, and a value. *)
Lemma parse_members_member fuel k colon t v r3 :
  ws_only colon ->
  parse_value fuel t = Some (v, r3) ->
  parse_members (S fuel) (quote k ++ [58%N] ++ colon ++ t) =
  match skip_ws r3 with
  | [] => None
  | c3 :: r4 =>
      if (c3 =? 44)%N then
        match parse_members fuel r4 with
        | Some (kvs, rest) => Some ((k, v) :: kvs, rest)
        | None => None
        end
      else if (c3 =? 125)%N then Some ([(k, v)], r4)
      else None
  end.
Proof.
  intros Hc Hv. unfold quote. cbn [parse_members].
  replace (([34%N] ++ quote_body k ++ [34%N]) ++ [58%N] ++ colon ++ t)
    with (34%N :: quote_body k ++ 34%N :: 58%N :: colon ++ t)
    by (cbn [app]; now rewrite <- app_assoc).
  rewrite skip_ws_solid by reflexivity.
  change (34 =? 34)%N with true. cbv iota.
  rewrite parse_string_quote_body.
  rewrite skip_ws_solid by reflexivity.
  change (58 =? 58)%N with true. cbv iota.
  now rewrite parse_value_skip, Hv.
Qed.

Lemma join_cons2 sep x y l : join sep (x :: y :: l) = x ++ sep ++ join sep (y :: l).
Proof. reflexivity. Qed.

(** *** Shape of the serialized text *)

Lemma ws_only_pre gap indent : ws_only indent -> ws_only (pre_ws gap indent).
Proof. unfold pre_ws. destruct (truthy gap); [exact id | reflexivity]. Qed.

Lemma wrap_cons open close gap stepback indent x partial :
  wrap open close gap stepback indent (x :: partial) =
  open :: pre_ws gap indent
    ++ join (44%N :: pre_ws gap indent) (x :: partial)
    ++ pre_ws gap stepback ++ [close].
Proof.
  unfold wrap, pre_ws.
  destruct (truthy gap); cbn [app]; rewrite <- ?app_assoc; reflexivity.
Qed.

Lemma serialize_head gap indent v :
  plain v = true ->
  exists c t, serialize gap indent v = c :: t
              /\ is_json_ws c = false /\ (c =? 93)%N = false.
Proof.
  intros H.
  destruct v as [| [|] | x | s | [|x items] | [|kv members]];
    try discriminate; cbn [serialize map]; rewrite ?wrap_cons;
    eexists _, _; (split; [reflexivity | split; reflexivity]).
Qed.

(** *** The round trip of values *)

Lemma parse_elements_join gap indent pre post items :
  ws_only gap -> ws_only indent -> ws_only pre -> ws_only post ->
  Forall (fun x => plain x = true -> reads_back x) items ->
  forallb plain items = true -> items <> [] ->
  exists f0, forall fuel rest, (f0 <= fuel)%nat ->
    parse_elements fuel
      (join (44%N :: pre) (map (serialize gap indent) items) ++ post ++ 93%N :: rest)
    = Some (items, rest).
Proof.
  intros Hgap Hind Hpre Hpost Hall Hplain Hne.
  induction items as [|x items IH]; [congruence|]. clear Hne.
  apply Forall_cons in Hall as [Hx Hall].
  simpl in Hplain. apply andb_true_iff in Hplain as [Hpx Hplain].
  destruct (Hx Hpx gap indent Hgap Hind) as [fx Hfx].
  destruct items as [|y items].
  - exists (S fx). intros fuel rest Hf.
    destruct fuel as [|fuel]; [lia|].
    rewrite parse_elements_S. cbn [map join].
    rewrite Hfx by lia. rewrite skip_ws_app by exact Hpost.
    rewrite skip_ws_solid by reflexivity. reflexivity.
  - destruct (IH Hall Hplain ltac:(discriminate)) as [fr Hfr].
    exists (S (Nat.max fx fr)). intros fuel rest Hf.
    destruct fuel as [|fuel]; [lia|].
    rewrite parse_elements_S.
    change (map (serialize gap indent) (x :: y :: items))
      with (serialize gap indent x :: map (serialize gap indent) (y :: items)).
    set (tail := map (serialize gap indent) (y :: items)) in *.
    change (serialize gap indent x :: tail)
      with (serialize gap indent x :: hd [] tail :: tl tail).
    rewrite join_cons2. change (hd [] tail :: tl tail) with tail.
    rewrite <- !app_assoc. rewrite Hfx by lia.
    cbn [app]. rewrite skip_ws_solid by reflexivity.
    change (44 =? 44)%N with true. cbv iota.
    rewrite parse_elements_skip by exact Hpre.
    now rewrite Hfr by lia.
Qed.

Lemma serialize_object gap indent members :
  serialize gap indent (JObject members) =
  wrap 123 125 gap indent (indent ++ gap)
    (map (member_text gap (indent ++ gap)) members).
Proof. reflexivity. Qed.

Lemma parse_members_join gap indent pre post members :
  ws_only gap -> ws_only indent -> ws_only pre -> ws_only post ->
  Forall (fun kv => plain (snd kv) = true -> reads_back (snd kv)) members ->
  forallb (fun kv => plain (snd kv)) members = true -> members <> [] ->
  exists f0, forall fuel rest, (f0 <= fuel)%nat ->
    parse_members fuel
      (join (44%N :: pre) (map (member_text gap indent) members)
         ++ post ++ 125%N :: rest)
    = Some (members, rest).
Proof.
  intros Hgap Hind Hpre Hpost Hall Hplain Hne.
  assert (Hcolon : ws_only (if truthy gap then [32%N] else []))
    by (destruct (truthy gap); reflexivity).
  induction members as [|[k v] members IH]; [congruence|]. clear Hne.
  apply Forall_cons in Hall as [Hv Hall].
  simpl in Hplain, Hv. apply andb_true_iff in Hplain as [Hpv Hplain].
  destruct (Hv Hpv gap indent Hgap Hind) as [fv Hfv].
  destruct members as [|kv' members].
  - exists (S fv). intros fuel rest Hf.
    destruct fuel as [|fuel]; [lia|].
    cbn [map join]. unfold member_text. cbn [fst snd].
    rewrite <- !app_assoc.
    rewrite (parse_members_member fuel k _ _ v (post ++ 125%N :: rest) Hcolon)
      by (apply Hfv; lia).
    rewrite skip_ws_app by exact Hpost.
    rewrite skip_ws_solid by reflexivity. reflexivity.
  - destruct (IH Hall Hplain ltac:(discriminate)) as [fr Hfr].
    exists (S (Nat.max fv fr)). intros fuel rest Hf.
    destruct fuel as [|fuel]; [lia|].
    change (map (member_text gap indent) ((k, v) :: kv' :: members))
      with (member_text gap indent (k, v)
              :: map (member_text gap indent) (kv' :: members)).
    set (tail := map (member_text gap indent) (kv' :: members)) in *.
    change (member_text gap indent (k, v) :: tail)
      with (member_text gap indent (k, v) :: hd [] tail :: tl tail).
    rewrite join_cons2. change (hd [] tail :: tl tail) with tail.
    unfold member_text at 1. cbn [fst snd].
    rewrite <- !app_assoc.
    rewrite (parse_members_member fuel k _ _ v
               ((44%N :: pre) ++ join (44%N :: pre) tail ++ post ++ 125%N :: rest)
               Hcolon)
      by (apply Hfv; lia).
    cbn [app]. rewrite skip_ws_solid by reflexivity.
    change (44 =? 44)%N with true. cbv iota.
    rewrite parse_members_skip by exact Hpre.
    now rewrite Hfr by lia.
Qed.

Lemma parse_value_string fuel t :
  parse_value (S fuel) (34%N :: t) =
  match parse_string t with
  | Some (str, rest) => Some (JString str, rest)
  | None => None
  end.
Proof. reflexivity. Qed.

Lemma parse_value_array fuel t c t' :
  skip_ws t = c :: t' -> (c =? 93)%N = false ->
  parse_value (S fuel) (91%N :: t) =
  match parse_elements fuel t with
  | Some (items, rest) => Some (JArray items, rest)
  | None => None
  end.
Proof.
  intros Hs Hc. cbn [parse_value]. rewrite skip_ws_solid by reflexivity.
  change (91 =? 123)%N with false. change (91 =? 91)%N with true. cbv iota.
  now rewrite Hs, Hc.
Qed.

Lemma parse_value_object fuel t c t' :
  skip_ws t = c :: t' -> (c =? 125)%N = false ->
  parse_value (S fuel) (123%N :: t) =
  match parse_members fuel t with
  | Some (raw, rest) => Some (JObject (build_object raw), rest)
  | None => None
  end.
Proof.
  intros Hs Hc. cbn [parse_value]. rewrite skip_ws_solid by reflexivity.
  change (123 =? 123)%N with true. cbv iota.
  now rewrite Hs, Hc.
Qed.

Lemma join_head sep x l :
  exists t, join sep (x :: l) = x ++ t.
Proof.
  destruct l as [|y l].
  - exists []. simpl. now rewrite app_nil_r.
  - eexists. apply join_cons2.
Qed.

(** Every plain value is read back from its text, whatever the
    indentation. *)
Lemma plain_reads_back v : plain v = true -> reads_back v.
Proof.
  induction v as [| b | x | s | items IH | members IH] using JValue_nested_ind;
    intros Hp gap indent Hgap Hind.
  - exists 1. intros [|fuel] rest Hf; [lia | reflexivity].
  - exists 1. intros [|fuel] rest Hf; [lia | destruct b; reflexivity].
  - discriminate.
  - exists 1. intros [|fuel] rest Hf; [lia|].
    cbn [serialize]. unfold quote. rewrite <- !app_assoc. cbn [app].
    now rewrite parse_value_string, parse_string_quote_body.
  - destruct items as [|x items].
    { exists 1. intros [|fuel] rest Hf; [lia | reflexivity]. }
    cbn [plain] in Hp.
    assert (Hin : ws_only (indent ++ gap)) by now apply ws_only_app.
    destruct (parse_elements_join gap (indent ++ gap)
                (pre_ws gap (indent ++ gap)) (pre_ws gap indent) (x :: items)
                Hgap Hin (ws_only_pre gap _ Hin) (ws_only_pre gap _ Hind)
                IH Hp ltac:(discriminate))
      as [f0 Hf0].
    exists (S f0). intros [|fuel] rest Hf; [lia|].
    cbn [serialize map]. rewrite wrap_cons.
    change (serialize gap (indent ++ gap) x :: map (serialize gap (indent ++ gap)) items)
      with (map (serialize gap (indent ++ gap)) (x :: items)).
    cbn [app]. rewrite <- !app_assoc. cbn [app].
    simpl in Hp. apply andb_true_iff in Hp as [Hpx _].
    destruct (serialize_head gap (indent ++ gap) x Hpx) as (c & t & Hc & Hws & H93).
    destruct (join_head (44%N :: pre_ws gap (indent ++ gap))
                (serialize gap (indent ++ gap) x)
                (map (serialize gap (indent ++ gap)) items)) as [t1 Ht1].
    erewrite parse_value_array.
    + rewrite parse_elements_skip by auto using ws_only_app, ws_only_pre.
      now rewrite Hf0 by lia.
    + rewrite skip_ws_app by auto using ws_only_app, ws_only_pre.
      cbn [map]. rewrite Ht1, Hc. cbn [app]. now apply skip_ws_solid.
    + exact H93.
  - destruct members as [|[k v] members].
    { exists 1. intros [|fuel] rest Hf; [lia | reflexivity]. }
    cbn [plain] in Hp. apply andb_true_iff in Hp as [Hp Hkeys].
    assert (Hin : ws_only (indent ++ gap)) by now apply ws_only_app.
    destruct (parse_members_join gap (indent ++ gap)
                (pre_ws gap (indent ++ gap)) (pre_ws gap indent) ((k, v) :: members)
                Hgap Hin (ws_only_pre gap _ Hin) (ws_only_pre gap _ Hind)
                IH Hp ltac:(discriminate))
      as [f0 Hf0].
    exists (S f0). intros [|fuel] rest Hf; [lia|].
    rewrite serialize_object. cbn [map]. rewrite wrap_cons.
    change (member_text gap (indent ++ gap) (k, v)
              :: map (member_text gap (indent ++ gap)) members)
      with (map (member_text gap (indent ++ gap)) ((k, v) :: members)).
    cbn [app]. rewrite <- !app_assoc. cbn [app].
    destruct (join_head (44%N :: pre_ws gap (indent ++ gap))
                (member_text gap (indent ++ gap) (k, v))
                (map (member_text gap (indent ++ gap)) members)) as [t1 Ht1].
    erewrite parse_value_object.
    + rewrite parse_members_skip by auto using ws_only_app, ws_only_pre.
      rewrite Hf0 by lia. now rewrite build_object_plain.
    + rewrite skip_ws_app by auto using ws_only_app, ws_only_pre.
      cbn [map]. rewrite Ht1. unfold member_text, quote. cbn [app].
      now apply skip_ws_solid.
    + reflexivity.
Qed.

(** *** Fuel: every successful step of the parser consumes input, hence the
    fuel [JSON_parse] supplies is enough for whatever can be parsed at all *)

Lemma skip_ws_length s : (length (skip_ws s) <= length s)%nat.
Proof.
  induction s as [|c s IH]; simpl; [lia|].
  destruct (is_json_ws c); simpl; lia.
Qed.

Lemma skip_ws_cons_length s c r :
  skip_ws s = c :: r -> (S (length r) <= length s)%nat.
Proof. intros H. pose proof (skip_ws_length s) as L. rewrite H in L. exact L. Qed.

Lemma parse_string_length s x r :
  parse_string s = Some (x, r) -> (length r < length s)%nat.
Proof.
  remember (length s) as n eqn:Hn.
  assert (Hle : (length s <= n)%nat) by lia. clear Hn.
  revert s x r Hle. induction n as [|n IH]; intros s x r Hle H.
  - destruct s; [discriminate | simpl in Hle; lia].
  - destruct s as [|c s]; [discriminate|]. simpl in Hle, H.
    destruct (c =? 34)%N; [injection H as _ <-; simpl; lia|].
    destruct (c =? 92)%N.
    + destruct s as [|e s]; [discriminate|].
      destruct (e =? 117)%N.
      * destruct s as [|h1 [|h2 [|h3 [|h4 s]]]]; try discriminate.
        destruct (decode4 h1 h2 h3 h4); [|discriminate].
        destruct (parse_string s) as [[t rest]|] eqn:E; [|discriminate].
        injection H as _ <-. apply IH in E; simpl in *; lia.
      * destruct (simple_escape e); [|discriminate].
        destruct (parse_string s) as [[t rest]|] eqn:E; [|discriminate].
        injection H as _ <-. apply IH in E; simpl in *; lia.
    + destruct (c <? 32)%N; [discriminate|].
      destruct (parse_string s) as [[t rest]|] eqn:E; [|discriminate].
      injection H as _ <-. apply IH in E; simpl in *; lia.
Qed.

Lemma take_digits_length s : (length (snd (take_digits s)) <= length s)%nat.
Proof.
  induction s as [|c s IH]; simpl; [lia|].
  destruct (is_digit c); simpl; [|lia].
  destruct (take_digits s); simpl in *. lia.
Qed.

Lemma strip_prefix_length p s r :
  strip_prefix p s = Some r -> (length r + length p = length s)%nat.
Proof.
  revert s. induction p as [|a p IH]; intros s H; simpl in H.
  - injection H as <-. simpl. lia.
  - destruct s as [|b s]; [discriminate|].
    destruct (a =? b)%N; [|discriminate]. apply IH in H. simpl. lia.
Qed.

Lemma parse_number_length s x r :
  parse_number s = Some (x, r) -> (length r < length s)%nat.
Proof.
  unfold parse_number. intros H.
  destruct (parse_sign s) as [sg s1] eqn:Es.
  assert (L1 : (length s1 <= length s)%nat).
  { unfold parse_sign in Es. destruct s as [|c s]; [injection Es as _ <-; lia|].
    destruct (c =? 45)%N; injection Es as _ <-; simpl; lia. }
  destruct (parse_int s1) as [[i s2]|] eqn:Ei; [|discriminate].
  assert (L2 : (length s2 < length s1)%nat).
  { unfold parse_int in Ei. destruct s1 as [|c s1]; [discriminate|].
    destruct (c =? 48)%N; [injection Ei as _ <-; simpl; lia|].
    destruct (is_digit c); [|discriminate].
    pose proof (take_digits_length s1) as L.
    destruct (take_digits s1). injection Ei as _ <-. simpl in *. lia. }
  destruct (parse_frac s2) as [[f s3]|] eqn:Ef; [|discriminate].
  assert (L3 : (length s3 <= length s2)%nat).
  { unfold parse_frac in Ef. destruct s2 as [|c s2]; [injection Ef as _ <-; lia|].
    destruct (c =? 46)%N; [|injection Ef as _ <-; lia].
    pose proof (take_digits_length s2) as L.
    destruct (take_digits s2) as [[|d ds] rest]; [discriminate|].
    injection Ef as _ <-. simpl in *. lia. }
  destruct (parse_exp s3) as [[e s4]|] eqn:Ee; [|discriminate].
  assert (L4 : (length s4 <= length s3)%nat).
  { unfold parse_exp in Ee. destruct s3 as [|c s3]; [injection Ee as _ <-; lia|].
    destruct ((c =? 101) || (c =? 69))%N; [|injection Ee as _ <-; lia].
    destruct s3 as [|d s3].
    - simpl in Ee. discriminate.
    - destruct ((d =? 43) || (d =? 45))%N.
      + pose proof (take_digits_length s3) as L.
        destruct (take_digits s3) as [[|d' ds] rest]; [discriminate|].
        injection Ee as _ <-. simpl in *. lia.
      + pose proof (take_digits_length (d :: s3)) as L.
        destruct (take_digits (d :: s3)) as [[|d' ds] rest]; [discriminate|].
        injection Ee as _ <-. simpl in *. lia. }
  injection H as _ <-. lia.
Qed.

Lemma parse_value_S fuel s :
  parse_value (S fuel) s =
  match skip_ws s with
  | [] => None
  | c :: r =>
      if (c =? 123)%N then
        match skip_ws r with
        | [] => None
        | c' :: r' =>
            if (c' =? 125)%N then Some (JObject [], r')
            else
              match parse_members fuel r with
              | Some (raw, rest) => Some (JObject (build_object raw), rest)
              | None => None
              end
        end
      else if (c =? 91)%N then
        match skip_ws r with
        | [] => None
        | c' :: r' =>
            if (c' =? 93)%N then Some (JArray [], r')
            else
              match parse_elements fuel r with
              | Some (items, rest) => Some (JArray items, rest)
              | None => None
              end
        end
      else if (c =? 34)%N then
        match parse_string r with
        | Some (str, rest) => Some (JString str, rest)
        | None => None
        end
      else
        match strip_prefix (lit "true") (c :: r),
              strip_prefix (lit "false") (c :: r),
              strip_prefix (lit "null") (c :: r) with
        | Some rest, _, _ => Some (JBool true, rest)
        | _, Some rest, _ => Some (JBool false, rest)
        | _, _, Some rest => Some (JNull, rest)
        | None, None, None =>
            match parse_number (c :: r) with
            | Some (x, rest) => Some (JNumber x, rest)
            | None => None
            end
        end
  end.
Proof. reflexivity. Qed.

Lemma parse_members_S fuel s :
  parse_members (S fuel) s =
  match skip_ws s with
  | [] => None
  | q :: r0 =>
      if (q =? 34)%N then
        match parse_string r0 with
        | None => None
        | Some (k, r1) =>
            match skip_ws r1 with
            | [] => None
            | c1 :: r2 =>
                if (c1 =? 58)%N then
                  match parse_value fuel r2 with
                  | None => None
                  | Some (v, r3) =>
                      match skip_ws r3 with
                      | [] => None
                      | c3 :: r4 =>
                          if (c3 =? 44)%N then
                            match parse_members fuel r4 with
                            | Some (kvs, rest) => Some ((k, v) :: kvs, rest)
                            | None => None
                            end
                          else if (c3 =? 125)%N then Some ([(k, v)], r4)
                          else None
                      end
                  end
                else None
            end
        end
      else None
  end.
Proof. reflexivity. Qed.

(** What is parsed with some fuel is parsed with any fuel above twice the
    length of the input, to the same result; and the rest is shorter than
    the input. *)
Lemma parse_fuel f :
  (forall s v r, parse_value f s = Some (v, r) ->
     (length r < length s)%nat
     /\ forall f', (2 * length s + 1 <= f')%nat -> parse_value f' s = Some (v, r))
  /\ (forall s vs r, parse_elements f s = Some (vs, r) ->
     (length r < length s)%nat
     /\ forall f', (2 * length s + 2 <= f')%nat -> parse_elements f' s = Some (vs, r))
  /\ (forall s kvs r, parse_members f s = Some (kvs, r) ->
     (length r < length s)%nat
     /\ forall f', (2 * length s + 2 <= f')%nat -> parse_members f' s = Some (kvs, r)).
Proof.
  induction f as [|f (IHv & IHe & IHm)]; [repeat split; discriminate|].
  split; [|split].
  - intros s v r H. rewrite parse_value_S in H.
    destruct (skip_ws s) as [|c t] eqn:Es; [discriminate|].
    pose proof (skip_ws_cons_length _ _ _ Es) as Ls.
    destruct (c =? 123)%N eqn:E1.
    { destruct (skip_ws t) as [|c' t'] eqn:Et; [discriminate|].
      pose proof (skip_ws_cons_length _ _ _ Et) as Lt.
      destruct (c' =? 125)%N eqn:E2.
      - injection H as <- <-. split; [lia|].
        intros [|f'] Hf; [lia|]. now rewrite parse_value_S, Es, E1, Et, E2.
      - destruct (parse_members f t) as [[raw rest]|] eqn:Em; [|discriminate].
        injection H as <- <-. destruct (IHm _ _ _ Em) as [L Hm].
        split; [lia|]. intros [|f'] Hf; [lia|].
        rewrite parse_value_S, Es, E1, Et, E2, Hm by lia. reflexivity. }
    destruct (c =? 91)%N eqn:E3.
    { destruct (skip_ws t) as [|c' t'] eqn:Et; [discriminate|].
      pose proof (skip_ws_cons_length _ _ _ Et) as Lt.
      destruct (c' =? 93)%N eqn:E2.
      - injection H as <- <-. split; [lia|].
        intros [|f'] Hf; [lia|]. now rewrite parse_value_S, Es, E1, E3, Et, E2.
      - destruct (parse_elements f t) as [[items rest]|] eqn:Em; [|discriminate].
        injection H as <- <-. destruct (IHe _ _ _ Em) as [L Hm].
        split; [lia|]. intros [|f'] Hf; [lia|].
        rewrite parse_value_S, Es, E1, E3, Et, E2, Hm by lia. reflexivity. }
    destruct (c =? 34)%N eqn:E4.
    { destruct (parse_string t) as [[str rest]|] eqn:Ep; [|discriminate].
      injection H as <- <-. apply parse_string_length in Ep as L.
      split; [lia|]. intros [|f'] Hf; [lia|].
      now rewrite parse_value_S, Es, E1, E3, E4, Ep. }
    assert (Hout : forall f', (1 <= f')%nat -> parse_value f' s = Some (v, r)).
    { intros [|f'] Hf; [lia|]. now rewrite parse_value_S, Es, E1, E3, E4. }
    split; [|intros f' Hf; apply Hout; lia].
    destruct (strip_prefix (lit "true") (c :: t)) eqn:P1.
    { injection H as _ <-. apply strip_prefix_length in P1. simpl in P1. lia. }
    destruct (strip_prefix (lit "false") (c :: t)) eqn:P2.
    { injection H as _ <-. apply strip_prefix_length in P2. simpl in P2. lia. }
    destruct (strip_prefix (lit "null") (c :: t)) eqn:P3.
    { injection H as _ <-. apply strip_prefix_length in P3. simpl in P3. lia. }
    destruct (parse_number (c :: t)) as [[x rest]|] eqn:Pn; [|discriminate].
    injection H as _ <-. apply parse_number_length in Pn. simpl in Pn. lia.
  - intros s vs r H. rewrite parse_elements_S in H.
    destruct (parse_value f s) as [[v r1]|] eqn:Ev; [|discriminate].
    destruct (IHv _ _ _ Ev) as [Lv Hv].
    destruct (skip_ws r1) as [|c r2] eqn:Es; [discriminate|].
    pose proof (skip_ws_cons_length _ _ _ Es) as Ls.
    destruct (c =? 44)%N eqn:E1.
    + destruct (parse_elements f r2) as [[vs' rest]|] eqn:Ee; [|discriminate].
      injection H as <- <-. destruct (IHe _ _ _ Ee) as [Le He].
      split; [lia|]. intros [|f'] Hf; [lia|].
      rewrite parse_elements_S, Hv, Es, E1, He by lia. reflexivity.
    + destruct (c =? 93)%N eqn:E2; [|discriminate].
      injection H as <- <-. split; [lia|]. intros [|f'] Hf; [lia|].
      rewrite parse_elements_S, Hv, Es, E1, E2 by lia. reflexivity.
  - intros s kvs r H. rewrite parse_members_S in H.
    destruct (skip_ws s) as [|q r0] eqn:Es; [discriminate|].
    pose proof (skip_ws_cons_length _ _ _ Es) as Ls.
    destruct (q =? 34)%N eqn:E1; [|discriminate].
    destruct (parse_string r0) as [[k r1]|] eqn:Ep; [|discriminate].
    apply parse_string_length in Ep as Lp.
    destruct (skip_ws r1) as [|c1 r2] eqn:Es1; [discriminate|].
    pose proof (skip_ws_cons_length _ _ _ Es1) as Ls1.
    destruct (c1 =? 58)%N eqn:E2; [|discriminate].
    destruct (parse_value f r2) as [[v r3]|] eqn:Ev; [|discriminate].
    destruct (IHv _ _ _ Ev) as [Lv Hv].
    destruct (skip_ws r3) as [|c3 r4] eqn:Es3; [discriminate|].
    pose proof (skip_ws_cons_length _ _ _ Es3) as Ls3.
    destruct (c3 =? 44)%N eqn:E3.
    + destruct (parse_members f r4) as [[kvs' rest]|] eqn:Em; [|discriminate].
      injection H as <- <-. destruct (IHm _ _ _ Em) as [Lm Hm].
      split; [lia|]. intros [|f'] Hf; [lia|].
      rewrite parse_members_S, Es, E1, Ep, Es1, E2, Hv, Es3, E3, Hm by lia.
      reflexivity.
    + destruct (c3 =? 125)%N eqn:E4; [|discriminate].
      injection H as <- <-. split; [lia|]. intros [|f'] Hf; [lia|].
      rewrite parse_members_S, Es, E1, Ep, Es1, E2, Hv, Es3, E3, E4 by lia.
      reflexivity.
Qed.

Lemma parse_value_fuel f s v r :
  parse_value f s = Some (v, r) ->
  parse_value (2 * length s + 1) s = Some (v, r).
Proof. intros H. apply (proj1 (parse_fuel f)) in H as [_ H]. now apply H. Qed.

(** More fuel does not help: [JSON_parse] rejects a text only if the parser
    rejects it with any amount of fuel. *)
Lemma JSON_parse_complete text f v rest :
  parse_value f text = Some (v, rest) -> skip_ws rest = [] ->
  JSON_parse text = Some v.
Proof.
  intros H Hr. unfold JSON_parse.
  now rewrite (parse_value_fuel f text v rest H), Hr.
Qed.

(** [JSON.parse(JSON.stringify(v, null, space))] is [v], for every plain
    value and every [space]. *)
Theorem JSON_parse_stringify v space :
  plain v = true -> JSON_parse (JSON_stringify v space) = Some v.
Proof.
  intros Hp. unfold JSON_stringify.
  destruct (plain_reads_back v Hp (repeat 32%N (Nat.min space 10)) [])
    as [f0 Hf0]; [apply ws_only_spaces | reflexivity |].
  specialize (Hf0 f0 [] (Nat.le_refl f0)). rewrite app_nil_r in Hf0.
  now apply (JSON_parse_complete _ f0 v []).
Qed.

(** ** The documents of the component are plain *)

Lemma plain_strings_json l : plain (strings_json l) = true.
Proof. unfold strings_json. simpl. induction l as [|x l IH]; [reflexivity | exact IH]. Qed.

Lemma plain_profile_json p : plain (profile_json p) = true.
Proof.
  unfold profile_json, demographics_json, psychographics_json, buyingBehavior_json.
  cbn -[strings_json lit]. rewrite !plain_strings_json. reflexivity.
Qed.

Lemma plain_exportData now s p : plain (exportData now s p) = true.
Proof.
  unfold exportData. cbn -[profile_json lit]. rewrite plain_profile_json. reflexivity.
Qed.

Lemma plain_profileData now s p : plain (profileData now s p) = true.
Proof.
  unfold profileData. cbn -[profile_json lit]. rewrite plain_profile_json. reflexivity.
Qed.

(** ** The typed records are read back from their objects *)

Lemma as_strings_json l : as_strings (strings_json l) = Some l.
Proof.
  unfold strings_json. simpl. induction l as [|x l IH]; [reflexivity|].
  simpl. now rewrite IH.
Qed.

Lemma get_prop_here k v m : get_prop k (JObject ((k, v) :: m)) = Some v.
Proof. simpl. now rewrite bool_decide_eq_true_2. Qed.

Lemma get_prop_next k k' v m :
  k' <> k -> get_prop k (JObject ((k', v) :: m)) = get_prop k (JObject m).
Proof. intros H. simpl. now rewrite bool_decide_eq_false_2. Qed.

(** Property reads with literal keys. *)
Ltac read_props :=
  repeat first
    [ rewrite get_prop_here
    | rewrite get_prop_next by (vm_compute; discriminate) ];
  cbn [mbind option_bind as_string].

Lemma demographics_of_json_inv d : demographics_of_json (demographics_json d) = Some d.
Proof.
  destruct d. unfold demographics_of_json, demographics_json, string_prop.
  now read_props.
Qed.

Lemma psychographics_of_json_inv p :
  psychographics_of_json (psychographics_json p) = Some p.
Proof.
  destruct p. unfold psychographics_of_json, psychographics_json, strings_prop,
    string_prop.
  read_props. rewrite !as_strings_json. reflexivity.
Qed.

Lemma buyingBehavior_of_json_inv b :
  buyingBehavior_of_json (buyingBehavior_json b) = Some b.
Proof.
  destruct b. unfold buyingBehavior_of_json, buyingBehavior_json, strings_prop,
    string_prop.
  read_props. rewrite !as_strings_json. reflexivity.
Qed.

Lemma profile_of_json_inv p : profile_of_json (profile_json p) = Some p.
Proof.
  destruct p. unfold profile_of_json, profile_json, strings_prop.
  read_props.
  rewrite demographics_of_json_inv, psychographics_of_json_inv,
    buyingBehavior_of_json_inv, !as_strings_json.
  reflexivity.
Qed.

Lemma businessInfo_of_json_inv now s p :
  get_prop (lit "businessInfo") (exportData now s p) ≫= businessInfo_of_json
  = Some (businessInfo_of s).
Proof.
  unfold exportData, businessInfo_of_json, string_prop. now read_props.
Qed.

Lemma customerProfile_of_json_inv now s p :
  get_prop (lit "customerProfile") (exportData now s p) ≫= profile_of_json = Some p.
Proof. unfold exportData. read_props. apply profile_of_json_inv. Qed.

(** ** JSON export *)

(** C8. Whenever a profile is held, the JSON exporter offers the file
    customer-profile.json, and parsing the text of that file gives back the
    document that was serialized: its [businessInfo] decodes to the four
    inputs and its [customerProfile] to the held profile, equal to the
    values in memory at the time of the export. *)
Theorem json_export_round_trip (now : Clock) (w : World) (p : CustomerProfile) :
  customerProfile (ui w) = Some p ->
  exists d doc,
    downloads (handleExportJSON now w) = downloads w ++ [d]
    /\ filename d = lit "customer-profile.json"
    /\ content d = JSON_stringify (exportData now (ui w) p) 2
    /\ JSON_parse (content d) = Some doc
    /\ doc = exportData now (ui w) p
    /\ get_prop (lit "businessInfo") doc ≫= businessInfo_of_json
       = Some (businessInfo_of (ui w))
    /\ get_prop (lit "customerProfile") doc ≫= profile_of_json = Some p.
Proof.
  intros Hp. unfold handleExportJSON. rewrite Hp.
  eexists _, (exportData now (ui w) p). cbn [downloads offer_download filename content].
  split; [reflexivity|]. split; [reflexivity|]. split; [reflexivity|].
  split; [apply JSON_parse_stringify, plain_exportData|].
  split; [reflexivity|].
  split; [apply businessInfo_of_json_inv | apply customerProfile_of_json_inv].
Qed.

Lemma json_export_round_trip_witness :
  exists d doc,
    downloads (handleExportJSON sample_clock scenario_result) = [d]
    /\ JSON_parse (content d) = Some doc
    /\ get_prop (lit "customerProfile") doc ≫= profile_of_json = Some sample_profile.
Proof.
  assert (H : customerProfile (ui scenario_result) = Some sample_profile)
    by reflexivity.
  destruct (json_export_round_trip sample_clock scenario_result sample_profile H)
    as (d & doc & Hd & _ & _ & Hparse & _ & _ & Hprof).
  exists d, doc. split; [exact Hd|]. split; [exact Hparse | exact Hprof].
Defined.

(** Without a profile the exporter does nothing. *)
Lemma json_export_noop now w :
  customerProfile (ui w) = None -> handleExportJSON now w = w.
Proof. intros H. unfold handleExportJSON. now rewrite H. Qed.

(** ** Profile store: load and append *)

(** [load] by cases on the user's entry. *)
Lemma load_cases u st :
  load u st =
    match st !! storage_key u with
    | Some text =>
        match JSON_parse text with
        | Some v => v
        | None => JArray []
        end
    | None => JArray []
    end.
Proof.
  unfold load, mount, loadSavedProfiles. cbn [storage user fresh].
  destruct (st !! storage_key u) as [text|]; [|reflexivity].
  destruct text as [|c text]; [reflexivity|]. cbn [truthy].
  now destruct (JSON_parse (c :: text)).
Qed.


(** Outside the mount, [loadSavedProfiles] keeps the list it finds when
    there is nothing to load. *)
Lemma loadSavedProfiles_keeps w :
  match storage w !! storage_key (user w) with
  | Some text => JSON_parse text = None
  | None => True
  end ->
  savedProfiles (ui (loadSavedProfiles w)) = savedProfiles (ui w).
Proof.
  unfold loadSavedProfiles.
  destruct (storage w !! storage_key (user w)) as [text|]; [|reflexivity].
  intros H. rewrite H. now destruct (truthy text).
Qed.

Example load_absent : load sample_user ∅ = JArray [].
Proof. reflexivity. Qed.

Example load_corrupt :
  load sample_user {[ storage_key sample_user := lit "[{'id':" ]} = JArray [].
Proof. vm_compute. reflexivity. Qed.

Example load_stored :
  load sample_user {[ storage_key sample_user := lit "[ null, true ]" ]}
  = JArray [JNull; JBool true].
Proof. vm_compute. reflexivity. Qed.





(** One enabled save: the record is added at the end of the sequence in
    memory, and the whole sequence is written under the user's key. *)
Lemma save_appends now w p items :
  customerProfile (ui w) = Some p -> step (ui w) = 3 -> isSaving (ui w) = false ->
  savedProfiles (ui w) = JArray items ->
  let w' := handle (ClickSave now) w in
  let updated := JArray (items ++ [profileData now (ui w) p]) in
  ui w' = setSavedProfiles updated (ui w)
  /\ user w' = user w
  /\ storage w' = <[storage_key (user w) := JSON_stringify updated 0]> (storage w).
Proof.
  intros Hp Hs Hsav Hl w' updated. subst w' updated.
  unfold handle. simpl. unfold result_shown. rewrite Hs, Hp, Hsav. simpl.
  unfold saveProfile. rewrite Hp, Hl. simpl.
  repeat split. destruct (ui w); simpl in *. now subst.
Qed.

(** The text [saveProfile] writes is never the empty string. *)
Lemma stringify_array_truthy items : truthy (JSON_stringify (JArray items) 0) = true.
Proof. destruct items; reflexivity. Qed.

Lemma load_after_write u st items :
  forallb plain items = true ->
  load u (<[storage_key u := JSON_stringify (JArray items) 0]> st) = JArray items.
Proof.
  intros Hp. rewrite load_cases, lookup_insert_eq.
  now rewrite JSON_parse_stringify.
Qed.


(** Events other than a save leave the saved sequence, the storage and the
    props alone. *)
Lemma handle_keeps_store e w :
  (forall now, e <> ClickSave now) ->
  savedProfiles (ui (handle e w)) = savedProfiles (ui w)
  /\ storage (handle e w) = storage w
  /\ user (handle e w) = user w
  /\ isSaving (ui (handle e w)) = isSaving (ui w).
Proof.
  intros Hne. unfold handle. destruct (enabled e w); [|tauto].
  destruct e; simpl; try tauto.
  - destruct (EXAMPLE_TEMPLATES !! i); simpl; tauto.
  - destruct outcome; simpl; tauto.
  - now destruct (Hne now).
  - unfold handleExportJSON. destruct (customerProfile (ui w)); simpl; tauto.
  - unfold handleExportText. destruct (customerProfile (ui w)); simpl; tauto.
Qed.

(** Whatever else happens in between, the store follows the saves: after
    any events, [load] returns what it returned before, followed by the
    record of every save that took place, in order. *)
Lemma store_follows_saves es w items :
  savedProfiles (ui w) = JArray items -> forallb plain items = true ->
  load (user w) (storage w) = JArray items -> isSaving (ui w) = false ->
  savedProfiles (ui (run es w)) = JArray (items ++ saved_by es w)
  /\ load (user w) (storage (run es w)) = JArray (items ++ saved_by es w).
Proof.
  revert w items. induction es as [|e es IH]; intros w items Hl Hplain Hload Hsav.
  - simpl. rewrite app_nil_r. auto.
  - cbn [run fold_left saved_by].
    change (fold_left (fun w e => handle e w) es (handle e w))
      with (run es (handle e w)).
    assert (Hkeep : (forall now, e <> ClickSave now) ->
              savedProfiles (ui (run es (handle e w)))
                = JArray (items ++ saved_by es (handle e w))
              /\ load (user w) (storage (run es (handle e w)))
                = JArray (items ++ saved_by es (handle e w))).
    { intros Hne. destruct (handle_keeps_store e w Hne) as (H1 & H2 & H3 & H4).
      rewrite <- H3. apply IH; rewrite ?H1, ?H2, ?H3, ?H4; auto. }
    destruct e; try (apply Hkeep; discriminate).
    destruct (enabled (ClickSave now) w) eqn:En.
    + simpl in En. apply andb_true_iff in En as [En _].
      pose proof (result_shown_step _ En) as Hs.
      unfold result_shown in En. apply andb_true_iff in En as [_ En].
      apply bool_decide_eq_true in En as [p Hp]. rewrite Hp.
      destruct (save_appends now w p items Hp Hs Hsav Hl) as (Hui & Hu & Hst).
      cbv zeta in Hui, Hu, Hst.
      specialize (IH (handle (ClickSave now) w)
                    (items ++ [profileData now (ui w) p])).
      rewrite Hui, Hu, Hst in IH. rewrite <- app_assoc in IH. cbn [app] in IH.
      apply IH; auto.
      * rewrite forallb_app, Hplain. cbn [forallb]. now rewrite plain_profileData.
      * apply load_after_write.
        rewrite forallb_app, Hplain. cbn [forallb]. now rewrite plain_profileData.
    + assert (E : handle (ClickSave now) w = w) by (unfold handle; now rewrite En).
      rewrite E. destruct (customerProfile (ui w)); now apply IH.
Qed.

(** In particular for a user without an entry: after any events since the
    mount, [load] returns exactly the records of the saves, in order. *)
Lemma new_user_store_follows_saves u st es :
  st !! storage_key u = None ->
  load u (storage (run es (mount u st))) = JArray (saved_by es (mount u st)).
Proof.
  intros Hnone.
  assert (Hm : mount u st = fresh u st)
    by (unfold mount, loadSavedProfiles; cbn [storage user fresh]; now rewrite Hnone).
  rewrite Hm.
  apply (store_follows_saves es (fresh u st) []); try reflexivity.
  cbn [user storage fresh]. now rewrite load_cases, Hnone.
Qed.



(** ** Text export *)

Lemma occurs_nil t : occurs_in_order [] t.
Proof. exact I. Qed.

Lemma occurs_here h hs t :
  occurs_in_order hs t -> occurs_in_order (h :: hs) (h ++ t).
Proof. intros H. now exists [], t. Qed.

Lemma occurs_skip x hs t :
  occurs_in_order hs t -> occurs_in_order hs (x ++ t).
Proof.
  destruct hs as [|h hs]; [trivial|]. intros (a & b & -> & H).
  exists (x ++ a), b. now rewrite <- app_assoc.
Qed.

Lemma occurs_here3 a b c hs t :
  occurs_in_order hs t -> occurs_in_order ((a ++ b ++ c) :: hs) (a ++ b ++ c ++ t).
Proof. intros H. exists [], t. now rewrite <- !app_assoc. Qed.

Lemma occurs_here4 a b c d hs t :
  occurs_in_order hs t ->
  occurs_in_order ((a ++ b ++ c ++ d) :: hs) (a ++ b ++ c ++ d ++ t).
Proof. intros H. exists [], t. now rewrite <- !app_assoc. Qed.

Lemma solid_end_lit a t : blank a = false -> solid_end (a ++ t).
Proof.
  unfold solid_end. intros Ha E. apply trimEnd_nil_blank in E.
  unfold blank in *. rewrite forallb_app, Ha in E. discriminate.
Qed.

Lemma solid_end_app a t : solid_end t -> solid_end (a ++ t).
Proof.
  unfold solid_end. intros H E. rewrite trimEnd_app_solid in E by exact H.
  apply app_eq_nil in E as [_ E]. contradiction.
Qed.

Lemma trimStart_lit a t :
  match a with c :: _ => negb (is_js_space c) | [] => false end = true ->
  trimStart (a ++ t) = a ++ t.
Proof.
  destruct a as [|c a]; [discriminate|]. intros H.
  apply negb_true_iff in H. simpl. now rewrite H.
Qed.

Ltac solve_solid_end :=
  solve [repeat first [apply solid_end_lit; reflexivity | apply solid_end_app]].

(** The report after [trim]: the line feed at its start is gone, and at its
    end only the last line can have lost anything. *)
Ltac trim_report :=
  unfold textContent, trim;
  rewrite (trimStart_app_blank nl) by reflexivity;
  rewrite trimStart_lit by reflexivity;
  repeat (rewrite trimEnd_app_solid by solve_solid_end).

Ltac find_in_order :=
  repeat first
    [ apply occurs_nil | apply occurs_here4 | apply occurs_here3
    | apply occurs_here | apply occurs_skip ].

Lemma textContent_headers now s p :
  occurs_in_order section_headers (textContent now s p)
  /\ exists body,
       textContent now s p = lit "CUSTOMER PROFILE REPORT" ++ nl ++ body
       /\ occurs_in_order (map (fun h => nl ++ h ++ nl) (tl section_headers)) body.
Proof.
  trim_report. split.
  - unfold section_headers. find_in_order.
  - eexists. split; [reflexivity|].
    unfold section_headers. cbn [map tl]. find_in_order.
Qed.

(** C9. Whenever a profile is held, the text exporter offers the file
    customer-profile.txt, whose text contains the ten section headers in
    the order CUSTOMER PROFILE REPORT, BUSINESS INFORMATION, CUSTOMER
    PROFILE, DEMOGRAPHICS, PSYCHOGRAPHICS, PAIN POINTS, MOTIVATIONS, GOALS,
    COMMUNICATION CHANNELS, BUYING BEHAVIOR; the first header opens the
    text and each of the others stands on a line of its own. *)
Theorem text_export_headers (now : Clock) (w : World) (p : CustomerProfile) :
  customerProfile (ui w) = Some p ->
  exists d,
    downloads (handleExportText now w) = downloads w ++ [d]
    /\ filename d = lit "customer-profile.txt"
    /\ content d = textContent now (ui w) p
    /\ occurs_in_order section_headers (content d)
    /\ exists body,
         content d = lit "CUSTOMER PROFILE REPORT" ++ nl ++ body
         /\ occurs_in_order (map (fun h => nl ++ h ++ nl) (tl section_headers)) body.
Proof.
  intros Hp. unfold handleExportText. rewrite Hp.
  eexists. cbn [downloads offer_download filename content].
  split; [reflexivity|]. split; [reflexivity|]. split; [reflexivity|].
  apply textContent_headers.
Qed.

Lemma text_export_headers_witness :
  exists d,
    downloads (handleExportText sample_clock scenario_result) = [d]
    /\ filename d = lit "customer-profile.txt"
    /\ occurs_in_order section_headers (content d).
Proof.
  assert (H : customerProfile (ui scenario_result) = Some sample_profile)
    by reflexivity.
  destruct (text_export_headers sample_clock scenario_result sample_profile H)
    as (d & Hd & Hf & _ & Ho & _).
  exists d. split; [exact Hd|]. split; [exact Hf | exact Ho].
Defined.

(** Without a profile the exporter does nothing. *)
Lemma text_export_noop now w :
  customerProfile (ui w) = None -> handleExportText now w = w.
Proof. intros H. unfold handleExportText. now rewrite H. Qed.

(** The scenario of the spec: the provider's object is what the report
    shows in its DEMOGRAPHICS section. *)
Lemma scenario_demographics :
  occurs_in_order
    [nl ++ lit "DEMOGRAPHICS" ++ nl;
     lit "Age Range: " ++ ageRange (demographics sample_profile) ++ nl;
     lit "Gender: " ++ gender (demographics sample_profile) ++ nl;
     lit "Location: " ++ location (demographics sample_profile) ++ nl;
     lit "Income Level: " ++ income (demographics sample_profile) ++ nl;
     lit "Education: " ++ education (demographics sample_profile) ++ nl]
    (textContent sample_clock (ui scenario_result) sample_profile).
Proof. trim_report. find_in_order. Qed.

(** ** The two exporters on an empty target market *)

(** C10. Whenever a profile is held and the target market is the empty
    string, the report of the text exporter has the line
    [Target Market: Not specified], while the document of the JSON exporter,
    parsed back, has the empty string as its [targetMarket]: the two files
    do not carry the same value for this input. *)
Theorem empty_target_market_exports (now : Clock) (w : World) (p : CustomerProfile) :
  customerProfile (ui w) = Some p -> targetMarket (ui w) = [] ->
  exists dt dj doc,
    downloads (handleExportText now w) = downloads w ++ [dt]
    /\ downloads (handleExportJSON now w) = downloads w ++ [dj]
    /\ occurs_in_order [nl ++ lit "Target Market: " ++ lit "Not specified" ++ nl]
         (content dt)
    /\ JSON_parse (content dj) = Some doc
    /\ get_prop (lit "businessInfo") doc ≫= string_prop "targetMarket" = Some []
    /\ lit "Not specified" <> targetMarket (ui w).
Proof.
  intros Hp Ht. unfold handleExportText, handleExportJSON. rewrite Hp.
  eexists _, _, (exportData now (ui w) p).
  cbn [downloads offer_download filename content].
  split; [reflexivity|]. split; [reflexivity|]. split; [|split; [|split]].
  - trim_report. rewrite Ht. cbn [or_else truthy]. find_in_order.
  - apply JSON_parse_stringify, plain_exportData.
  - unfold exportData, string_prop. read_props. now rewrite Ht.
  - rewrite Ht. discriminate.
Qed.

Lemma empty_target_market_exports_witness :
  exists dt dj doc,
    downloads (handleExportText sample_clock scenario_result) = [dt]
    /\ downloads (handleExportJSON sample_clock scenario_result) = [dj]
    /\ occurs_in_order [nl ++ lit "Target Market: " ++ lit "Not specified" ++ nl]
         (content dt)
    /\ JSON_parse (content dj) = Some doc
    /\ get_prop (lit "businessInfo") doc ≫= string_prop "targetMarket" = Some [].
Proof.
  assert (Hp : customerProfile (ui scenario_result) = Some sample_profile)
    by reflexivity.
  assert (Ht : targetMarket (ui scenario_result) = []) by reflexivity.
  destruct (empty_target_market_exports sample_clock scenario_result
              sample_profile Hp Ht)
    as (dt & dj & doc & H1 & H2 & H3 & H4 & H5 & _).
  exists dt, dj, doc. repeat split; assumption.
Defined.

(** A target market that is not empty is reported as it is, white space
    included. *)
Lemma target_market_reported now s p :
  targetMarket s <> [] ->
  occurs_in_order [nl ++ lit "Target Market: " ++ targetMarket s ++ nl]
    (textContent now s p).
Proof.
  intros H. trim_report.
  assert (E : or_else (targetMarket s) (lit "Not specified") = targetMarket s)
    by (unfold or_else; destruct (targetMarket s); [congruence | reflexivity]).
  rewrite E. find_in_order.
Qed.

(** ** Further facts about the wizard *)

(** A rejection leaves the wizard on the step it is on, whichever it is. *)
Lemma failure_keeps_step w :
  step (ui (handle (GatewaySettles None) w)) = step (ui w)
  /\ customerProfile (ui (handle (GatewaySettles None) w)) = customerProfile (ui w).
Proof. unfold handle. simpl. now destruct (0 <? inflight w)%nat. Qed.

(** Start over: back to step 1 with the four inputs empty and no profile;
    the saved sequence and the storage are as before. *)
Lemma start_over_clears w :
  result_shown (ui w) = true ->
  let w' := handle ClickStartOver w in
  step (ui w') = 1
  /\ businessInfo_of (ui w') = businessInfo_of initial_state
  /\ customerProfile (ui w') = None
  /\ savedProfiles (ui w') = savedProfiles (ui w)
  /\ storage w' = storage w.
Proof. intros H. unfold handle. simpl. rewrite H. simpl. tauto. Qed.

(** A template card fills in all four inputs and enters step 2 at once. *)
Lemma template_enters_details w i t :
  step (ui w) = 1 -> showTemplates (ui w) = true ->
  EXAMPLE_TEMPLATES !! i = Some t ->
  let w' := handle (ClickTemplate i) w in
  step (ui w') = 2
  /\ visionStatement (ui w') = vision t
  /\ missionStatement (ui w') = mission t
  /\ businessDescription (ui w') = business t
  /\ targetMarket (ui w') = target t
  /\ showTemplates (ui w') = false.
Proof.
  intros Hs Hd Ht. unfold handle. simpl. rewrite Hs, Hd, Ht. simpl. tauto.
Qed.

(** The prompt carries the four inputs as they are, each on its line. *)
Lemma prompt_embeds_inputs s :
  occurs_in_order
    [lit "Vision Statement: " ++ visionStatement s ++ nl;
     lit "Mission Statement: " ++ missionStatement s ++ nl;
     lit "Business Description: " ++ businessDescription s ++ nl;
     lit "Target Market: " ++ targetMarket s ++ nl]
    (prompt s).
Proof.
  unfold prompt.
  change (lit "        Vision Statement: ")
    with (lit "        " ++ lit "Vision Statement: ").
  change (lit "        Mission Statement: ")
    with (lit "        " ++ lit "Mission Statement: ").
  change (lit "        Business Description: ")
    with (lit "        " ++ lit "Business Description: ").
  change (lit "        Target Market: ")
    with (lit "        " ++ lit "Target Market: ").
  rewrite <- !app_assoc. find_in_order.
Qed.

(** * Part III: further properties of the code *)

(** ** The wizard *)

(** X1. In every reachable state at most one generation call is in flight,
    and [isGenerating] is set exactly while there is one: the trigger never
    sends a second request before the first has settled. *)
Theorem generation_calls_do_not_overlap (w : World) :
  reachable w ->
  (inflight w <= 1)%nat
  /\ (isGenerating (ui w) = true <-> inflight w = 1)
  /\ (inflight w = 1 -> handle ClickGenerate w = w).
Proof.
  intros Hr. pose proof (reachable_inv w Hr) as [_ _ Hfl _ _].
  destruct (isGenerating (ui w)) eqn:Hg; rewrite Hfl.
  - split; [lia|]. split; [tauto|]. intros _.
    unfold handle. simpl. unfold generate_disabled. rewrite Hg.
    now rewrite orb_true_r, andb_false_r.
  - split; [lia|]. split; [split; [discriminate | lia] | lia].
Qed.

Lemma generation_calls_do_not_overlap_witness :
  inflight sample_waiting = 1 /\ handle ClickGenerate sample_waiting = sample_waiting.
Proof.
  destruct (generation_calls_do_not_overlap sample_waiting sample_waiting_reachable)
    as (_ & _ & H).
  assert (E : inflight sample_waiting = 1) by reflexivity.
  split; [exact E | exact (H E)].
Defined.

(** X2. In every reachable state exactly one card is rendered: the page
    under the header is never empty, and never shows two steps. *)
Theorem one_card_is_rendered (w : World) :
  reachable w -> exists c, cards (ui w) = [c].
Proof.
  intros Hr. pose proof (reachable_inv w Hr) as [Hs Hp _ _ _].
  unfold cards. destruct Hs as [Hs | [Hs | Hs]]; rewrite Hs; simpl.
  - now exists IntakeCard.
  - now exists DetailsCard.
  - rewrite bool_decide_eq_true_2 by now apply Hp. now exists ResultCard.
Qed.

Lemma one_card_is_rendered_witness : cards (ui sample_result) = [ResultCard].
Proof.
  destruct (one_card_is_rendered sample_result sample_result_reachable) as [c Hc].
  rewrite Hc. f_equal.
  assert (E : cards (ui sample_result) = [ResultCard]) by reflexivity.
  rewrite E in Hc. now injection Hc.
Defined.

(** X3. A generation attempt that is rejected leaves every hook as it was
    before the click, and the storage too: what remains of it is the
    request that was sent and the error in the log. *)
Theorem failed_attempt_is_undone (w : World) :
  enabled ClickGenerate w = true ->
  let w' := run [ClickGenerate; GatewaySettles None] w in
  ui w' = ui w
  /\ storage w' = storage w
  /\ inflight w' = inflight w
  /\ requests w' = requests w ++ [prompt (ui w)]
  /\ console w' = console w ++ [lit "Error generating customer profile:"].
Proof.
  intros En w'. subst w'. simpl.
  assert (E : handle ClickGenerate w = handleGenerate_call w)
    by (unfold handle; now rewrite En).
  rewrite E. unfold handle. simpl.
  simpl in En. apply andb_true_iff in En as [_ En].
  apply negb_true_iff, orb_false_iff in En as [_ Hg].
  repeat split. destruct (ui w); simpl in *. now subst.
Qed.

Lemma failed_attempt_is_undone_witness :
  ui (run [ClickGenerate; GatewaySettles None] sample_details) = ui sample_details.
Proof.
  assert (En : enabled ClickGenerate sample_details = true) by reflexivity.
  exact (proj1 (failed_attempt_is_undone sample_details En)).
Defined.

(** X4. The inputs are not frozen while a call is in flight: an edit of the
    business description made on step 2 during the call is kept, no new
    request goes out, and the answer to the old request is then shown on
    step 3 beside the edited description. *)
Theorem edits_during_generation_are_kept (w : World) (v : jsstring)
    (object : CustomerProfile) :
  step (ui w) = 2 -> (0 < inflight w)%nat ->
  let w' := run [ChangeBusiness v; GatewaySettles (Some object)] w in
  step (ui w') = 3
  /\ customerProfile (ui w') = Some object
  /\ businessDescription (ui w') = v
  /\ requests w' = requests w.
Proof.
  intros Hs Hfl w'. subst w'. simpl.
  assert (E : handle (ChangeBusiness v) w
              = with_ui w (setBusinessDescription v (ui w)))
    by (unfold handle; simpl; now rewrite Hs).
  rewrite E. unfold handle. simpl. apply Nat.ltb_lt in Hfl. rewrite Hfl.
  simpl. tauto.
Qed.

Lemma edits_during_generation_are_kept_witness :
  let w' := run [ChangeBusiness (lit "Bakery"); GatewaySettles (Some sample_profile)]
              sample_waiting in
  customerProfile (ui w') = Some sample_profile
  /\ businessDescription (ui w') = lit "Bakery"
  /\ requests w' = [prompt (ui sample_details)].
Proof.
  assert (Hs : step (ui sample_waiting) = 2) by reflexivity.
  assert (Hfl : (0 < inflight sample_waiting)%nat) by (vm_compute; lia).
  destruct (edits_during_generation_are_kept sample_waiting (lit "Bakery")
              sample_profile Hs Hfl) as (_ & A & B & C).
  split; [exact A|]. split; [exact B|]. rewrite C. reflexivity.
Defined.

(** Every template passes the guards of both steps. *)
Lemma templates_are_filled i t :
  EXAMPLE_TEMPLATES !! i = Some t ->
  blank (vision t) = false /\ blank (mission t) = false
  /\ blank (business t) = false.
Proof.
  intros H.
  destruct i as [|[|[|i]]]; simpl in H; try discriminate;
    injection H as <-; vm_compute; auto.
Qed.

Lemma not_blank_truthy s : blank s = false -> truthy (trim s) = true.
Proof.
  intros H. destruct (truthy (trim s)) eqn:E; [reflexivity|].
  apply trim_falsy_iff_blank in E. congruence.
Qed.

(** X5. Clicking any of the template cards while no call is in flight
    leads to step 2 with the generate control enabled at once; and going
    back from there finds the continue control enabled. *)
Theorem template_passes_the_guards (w : World) (i : nat) :
  enabled (ClickTemplate i) w = true -> isGenerating (ui w) = false ->
  let w' := handle (ClickTemplate i) w in
  step (ui w') = 2
  /\ enabled ClickGenerate w' = true
  /\ enabled ClickContinue (handle ClickBack w') = true.
Proof.
  intros En Hg w'. subst w'.
  assert (Ht : exists t, EXAMPLE_TEMPLATES !! i = Some t).
  { simpl in En. apply andb_true_iff in En as [_ En].
    now apply bool_decide_eq_true in En. }
  destruct Ht as [t Ht].
  assert (E : handle (ClickTemplate i) w = with_ui w (loadTemplate t (ui w)))
    by (unfold handle; rewrite En; simpl; now rewrite Ht).
  rewrite E. clear E.
  destruct (templates_are_filled i t Ht) as (Hv & Hm & Hb).
  split; [reflexivity|]. split.
  - simpl. unfold generate_disabled. simpl.
    now rewrite (not_blank_truthy _ Hb), Hg.
  - unfold handle. simpl. unfold continue_disabled. simpl.
    now rewrite (not_blank_truthy _ Hv), (not_blank_truthy _ Hm).
Qed.

Lemma template_passes_the_guards_witness :
  enabled ClickGenerate sample_details = true.
Proof.
  assert (En : enabled (ClickTemplate 0)
                 (run [OpenChangeTemplates true] (mount sample_user ∅)) = true)
    by reflexivity.
  exact (proj1 (proj2 (template_passes_the_guards _ 0 En eq_refl))).
Defined.

(** X6. In every reachable state that shows the result, start over puts
    all hooks back to their initial values except two: the saved sequence
    and the flag of the template dialog, which keep their values. *)
Theorem start_over_resets_the_wizard (w : World) :
  reachable w -> result_shown (ui w) = true ->
  ui (handle ClickStartOver w)
  = setShowTemplates (showTemplates (ui w))
      (setSavedProfiles (savedProfiles (ui w)) initial_state)
  /\ storage (handle ClickStartOver w) = storage w
  /\ enabled ClickContinue (handle ClickStartOver w) = false.
Proof.
  intros Hr Hshown.
  pose proof (reachable_inv w Hr) as [_ _ _ Hidle Hsav].
  pose proof (Hidle (result_shown_step _ Hshown)) as Hg.
  unfold handle. simpl. rewrite Hshown. simpl.
  split; [|split; reflexivity].
  destruct (ui w); simpl in *. now subst.
Qed.

Lemma start_over_resets_the_wizard_witness :
  ui (handle ClickStartOver sample_result) = initial_state.
Proof.
  assert (Hs : result_shown (ui sample_result) = true) by reflexivity.
  rewrite (proj1 (start_over_resets_the_wizard sample_result
                    sample_result_reachable Hs)).
  reflexivity.
Defined.

(** ** The profile store *)














(** ** The text report *)

Lemma trimEnd_app_blank a b : blank b = true -> trimEnd (a ++ b) = trimEnd a.
Proof.
  intros H. unfold trimEnd. rewrite rev_app_distr.
  now rewrite trimStart_app_blank by now rewrite blank_rev.
Qed.

Lemma ends_with_here s : ends_with s s.
Proof. now exists []. Qed.

Lemma ends_with_skip x s t : ends_with s t -> ends_with s (x ++ t).
Proof. intros [body ->]. exists (x ++ body). now rewrite <- app_assoc. Qed.

(** The last line of the report after [trim]. *)
Lemma last_line_trimmed b :
  trimEnd (lit "Budget Range: " ++ b ++ nl ++ lit "    ")
  = lit "Budget Range:" ++ trimEnd (32%N :: b).
Proof.
  change (lit "Budget Range: ") with (lit "Budget Range:" ++ [32%N]).
  replace ((lit "Budget Range:" ++ [32%N]) ++ b ++ nl ++ lit "    ")
    with ((lit "Budget Range:" ++ 32%N :: b) ++ nl ++ lit "    ")
    by (now rewrite <- !app_assoc).
  rewrite trimEnd_app_blank by reflexivity.
  destruct (trimEnd (32%N :: b)) eqn:E.
  - apply trimEnd_nil_blank in E. rewrite app_nil_r.
    change (lit "Budget Range:") with (lit "Budget Range" ++ [58%N]).
    rewrite <- app_assoc. cbn [app].
    now apply trimEnd_snoc_solid.
  - rewrite <- E. apply trimEnd_app_solid. now rewrite E.
Qed.

(** X11. [trim] cuts the report's last line: the text ends with
    [Budget Range:] followed by a space and the budget without its trailing
    white space; when the budget is blank the space goes too, and the text
    ends with the colon. *)
Theorem report_ends_with_trimmed_budget (now : Clock) (s : State)
    (p : CustomerProfile) :
  let b := budget (buyingBehavior p) in
  ends_with (nl ++ lit "Budget Range:" ++ trimEnd (32%N :: b)) (textContent now s p)
  /\ (blank b = true -> ends_with (nl ++ lit "Budget Range:") (textContent now s p))
  /\ (blank b = false ->
      ends_with (nl ++ lit "Budget Range: " ++ trimEnd b) (textContent now s p)).
Proof.
  intros b.
  assert (H : ends_with (nl ++ lit "Budget Range:" ++ trimEnd (32%N :: b))
                (textContent now s p)).
  { trim_report. rewrite last_line_trimmed.
    repeat first [apply ends_with_here | apply ends_with_skip]. }
  split; [exact H|]. split.
  - intros Hb. rewrite (trimEnd_blank (32%N :: b)) in H by exact Hb.
    now rewrite app_nil_r in H.
  - intros Hb.
    assert (E : trimEnd (32%N :: b) = 32%N :: trimEnd b).
    { apply (trimEnd_app_solid [32%N]). intros E.
      apply trimEnd_nil_blank in E. congruence. }
    rewrite E in H.
    change (lit "Budget Range: ") with (lit "Budget Range:" ++ [32%N]).
    now rewrite <- app_assoc.
Qed.

Lemma occurs_join sep l hs t :
  occurs_in_order hs t -> occurs_in_order (l ++ hs) (join sep l ++ t).
Proof.
  intros H. induction l as [|x l IH]; [exact H|].
  destruct l as [|y l].
  - cbn [join app]. now apply occurs_here.
  - rewrite join_cons2. cbn [app]. rewrite <- !app_assoc.
    apply occurs_here. apply occurs_skip. exact IH.
Qed.

Lemma occurs_here2 a b hs t :
  occurs_in_order hs t -> occurs_in_order ((a ++ b) :: hs) (a ++ b ++ t).
Proof. intros H. exists [], t. now rewrite <- !app_assoc. Qed.

Lemma occurs_join_last sep l t : occurs_in_order l (join sep l ++ t).
Proof.
  rewrite <- (app_nil_r l) at 1. apply occurs_join, occurs_nil.
Qed.

Ltac find_items_in_order :=
  cbn [app];
  repeat first
    [ apply occurs_nil | apply occurs_join_last | apply occurs_join
    | apply occurs_here3
    | apply occurs_here2 | apply occurs_here | apply occurs_skip ].

(** X12. Every item of the profile's lists is in the report, under the
    header or label of its list and in the order of the list: values and
    interests after their labels, pain points, motivations and goals as
    bullet lines, channels and decision factors as they are. *)
Theorem report_lists_every_item (now : Clock) (s : State) (p : CustomerProfile) :
  occurs_in_order
    ([lit "Values: "] ++ values (psychographics p)
     ++ [nl ++ lit "Interests: "] ++ interests (psychographics p)
     ++ [nl ++ lit "PAIN POINTS" ++ nl] ++ map bullet (painPoints p)
     ++ [nl ++ lit "MOTIVATIONS" ++ nl] ++ map bullet (motivations p)
     ++ [nl ++ lit "GOALS" ++ nl] ++ map bullet (goals p)
     ++ [nl ++ lit "COMMUNICATION CHANNELS" ++ nl] ++ communicationChannels p
     ++ [nl ++ lit "BUYING BEHAVIOR" ++ nl; lit "Decision Factors: "]
     ++ decisionFactors (buyingBehavior p))
    (textContent now s p).
Proof.
  trim_report. find_items_in_order.
Qed.

(** X13. The report cannot tell an empty target market from the words
    [Not specified] typed in as the target market: the two texts are equal,
    while the two JSON documents differ. *)
Theorem report_conflates_unspecified_target (now : Clock) (s : State)
    (p : CustomerProfile) :
  let s1 := setTargetMarket [] s in
  let s2 := setTargetMarket (lit "Not specified") s in
  textContent now s1 p = textContent now s2 p
  /\ JSON_stringify (exportData now s1 p) 2 <> JSON_stringify (exportData now s2 p) 2.
Proof.
  intros s1 s2. split; [reflexivity|]. intros E.
  apply (f_equal JSON_parse) in E.
  rewrite !JSON_parse_stringify in E by apply plain_exportData.
  injection E as E. vm_compute in E. discriminate.
Qed.

(** ** The prompt *)

Lemma split_at_line_feed a a' r r' :
  no_lf a = true -> no_lf a' = true ->
  a ++ 10%N :: r = a' ++ 10%N :: r' -> a = a' /\ r = r'.
Proof.
  revert a'. induction a as [|c a IH]; intros [|c' a'] Ha Ha' E; simpl in *.
  - injection E as <-. auto.
  - injection E as <- _. simpl in Ha'. discriminate.
  - injection E as -> _. simpl in Ha. discriminate.
  - apply andb_true_iff in Ha as [_ Ha]. apply andb_true_iff in Ha' as [_ Ha'].
    injection E as -> E. destruct (IH a' Ha Ha' E) as [-> ->]. auto.
Qed.

(** X14. When the vision statement, the mission statement and the business
    description hold no line feed, the prompt determines all four inputs:
    two sets of such inputs with the same prompt are equal. *)
Theorem prompt_determines_single_line_inputs (s s' : State) :
  no_lf (visionStatement s) = true -> no_lf (visionStatement s') = true ->
  no_lf (missionStatement s) = true -> no_lf (missionStatement s') = true ->
  no_lf (businessDescription s) = true -> no_lf (businessDescription s') = true ->
  prompt s = prompt s' -> businessInfo_of s = businessInfo_of s'.
Proof.
  intros Hv Hv' Hm Hm' Hb Hb' E. unfold prompt in E.
  do 6 apply app_inv_head in E.
  apply split_at_line_feed in E as [Ev E]; [|assumption..].
  apply app_inv_head in E.
  apply split_at_line_feed in E as [Em E]; [|assumption..].
  apply app_inv_head in E.
  apply split_at_line_feed in E as [Eb E]; [|assumption..].
  apply app_inv_head in E.
  apply app_inv_tail in E.
  unfold businessInfo_of. now rewrite Ev, Em, Eb, E.
Qed.

Lemma prompt_determines_single_line_inputs_witness :
  businessInfo_of (ui sample_waiting) = businessInfo_of (ui sample_result).
Proof.
  exact (prompt_determines_single_line_inputs (ui sample_waiting)
           (ui sample_result) eq_refl eq_refl eq_refl eq_refl eq_refl eq_refl
           eq_refl).
Defined.

(** X15. The prompt does not escape its inputs: text after a line feed in
    the vision statement can pass for the mission statement.  Moving such
    text from the end of the one to the start of the other gives different
    inputs with the same prompt. *)
Theorem prompt_confuses_multi_line_inputs (s : State) (x y : jsstring) :
  let label := nl ++ lit "        Mission Statement: " in
  let s1 := setVisionStatement (x ++ label ++ y) s in
  let s2 := setMissionStatement (y ++ label ++ missionStatement s)
              (setVisionStatement x s) in
  prompt s1 = prompt s2 /\ visionStatement s1 <> visionStatement s2.
Proof.
  intros label s1 s2. split.
  - unfold prompt, s1, s2, label. simpl.
    rewrite <- !app_assoc. reflexivity.
  - unfold s1, s2, label. simpl. intros E.
    apply (f_equal (@length N)) in E. rewrite !length_app in E. simpl in E. lia.
Qed.

(** ** The session gate *)




















(** ** The earlier revision *)

(** One event of the earlier revision, in both revisions. *)
Lemma forget_handle e w : forget (handle (lift e) w) = Rev1.handle e (forget w).
Proof.
  unfold handle, Rev1.handle.
  assert (En : Rev1.enabled e (forget w) = enabled (lift e) w)
    by now destruct e.
  rewrite En. destruct (enabled (lift e) w); [|reflexivity].
  destruct e; try reflexivity.
  - now destruct outcome.
  - cbn [lift fire Rev1.fire]. unfold handleExportJSON, Rev1.handleExport.
    cbn [Rev1.customerProfile Rev1.ui forget forget_ui].
    now destruct (customerProfile (ui w)).
Qed.


Lemma rev1_reachable_image w1 :
  Rev1.reachable w1 -> exists w, reachable w /\ forget w = w1.
Proof.
  induction 1 as [|e w1 _ (w & Hw & <-)].
  - exists (mount sample_user ∅). split; [constructor | reflexivity].
  - exists (handle (lift e) w). split; [now constructor | apply forget_handle].
Qed.

(** X21. The earlier revision keeps the same invariant: in every state it
    can reach, a profile is held exactly on step 3, the step is 1, 2 or 3,
    and [isGenerating] is set exactly while its one call is in flight. *)
Theorem earlier_revision_invariant (w1 : Rev1.World) :
  Rev1.reachable w1 ->
  (is_Some (Rev1.customerProfile (Rev1.ui w1)) <-> Rev1.step (Rev1.ui w1) = 3)
  /\ (Rev1.step (Rev1.ui w1) = 1 \/ Rev1.step (Rev1.ui w1) = 2
      \/ Rev1.step (Rev1.ui w1) = 3)
  /\ Rev1.inflight w1 = (if Rev1.isGenerating (Rev1.ui w1) then 1 else 0).
Proof.
  intros Hr. destruct (rev1_reachable_image w1 Hr) as (w & Hw & <-).
  destruct (reachable_inv w Hw) as [A B C _ _]. simpl. auto.
Qed.

Lemma rev1_reachable_run es w : Rev1.reachable w -> Rev1.reachable (Rev1.run es w).
Proof.
  revert w. induction es as [|e es IH]; simpl; intros w H; [exact H|].
  apply IH. now constructor.
Qed.

Lemma earlier_revision_invariant_witness :
  Rev1.customerProfile (Rev1.ui rev1_sample) = Some sample_profile
  /\ Rev1.step (Rev1.ui rev1_sample) = 3.
Proof.
  split; [reflexivity|].
  apply (proj1 (earlier_revision_invariant rev1_sample
                  (rev1_reachable_run _ _ Rev1.reach_initial))).
  now exists sample_profile.
Defined.

(** ** The requests *)

Lemma loadSavedProfiles_inputs w :
  step (ui (loadSavedProfiles w)) = step (ui w)
  /\ businessInfo_of (ui (loadSavedProfiles w)) = businessInfo_of (ui w)
  /\ requests (loadSavedProfiles w) = requests w.
Proof.
  unfold loadSavedProfiles.
  destruct (storage w !! storage_key (user w)) as [text|]; [|auto].
  destruct (truthy text); [|auto]. now destruct (JSON_parse text).
Qed.

Lemma saveProfile_inputs now w :
  step (ui (saveProfile now w)) = step (ui w)
  /\ visionStatement (ui (saveProfile now w)) = visionStatement (ui w)
  /\ missionStatement (ui (saveProfile now w)) = missionStatement (ui w)
  /\ requests (saveProfile now w) = requests w.
Proof.
  unfold saveProfile. destruct (customerProfile (ui w)); [|auto].
  now destruct (spread (savedProfiles (ui w))).
Qed.

Lemma request_inv_handle e w : request_inv w -> request_inv (handle e w).
Proof.
  intros [Hd Hsent]. unfold handle.
  destruct (enabled e w) eqn:En; [|now split].
  destruct e; simpl in En |- *;
    try (apply andb_true_iff in En as [En En2]);
    try (apply Nat.eqb_eq in En);
    try (split; simpl; [first [exact Hd | intros H; lia | discriminate] | exact Hsent]).
  - (* template card *)
    apply bool_decide_eq_true in En2 as [t Ht]. rewrite Ht.
    destruct (templates_are_filled i t Ht) as (Hv & Hm & _).
    split; simpl; auto.
  - (* continue *)
    unfold continue_disabled in En2.
    apply negb_true_iff, orb_false_iff in En2 as [Hv Hm].
    apply negb_false_iff in Hv, Hm.
    split; simpl; [|exact Hsent]. intros _. split.
    + destruct (blank (visionStatement (ui w))) eqn:B; [|reflexivity].
      apply trim_falsy_iff_blank in B. congruence.
    + destruct (blank (missionStatement (ui w))) eqn:B; [|reflexivity].
      apply trim_falsy_iff_blank in B. congruence.
  - (* generate *)
    unfold generate_disabled in En2.
    apply negb_true_iff, orb_false_iff in En2 as [Hb _].
    apply negb_false_iff in Hb.
    destruct (Hd En) as [Hv Hm].
    split; simpl; [exact Hd|].
    apply Forall_app. split; [exact Hsent|]. constructor; [|constructor].
    exists (ui w). split; [reflexivity|]. unfold filled. rewrite Hv, Hm. simpl.
    destruct (blank (businessDescription (ui w))) eqn:B; [|reflexivity].
    apply trim_falsy_iff_blank in B. congruence.
  - (* the call settles *)
    destruct outcome; split; simpl; auto. discriminate.
  - (* save *)
    destruct (saveProfile_inputs now w) as (A & B & C & D).
    split; rewrite ?A, ?B, ?C, ?D; auto.
  - unfold handleExportJSON. destruct (customerProfile (ui w)); now split.
  - unfold handleExportText. destruct (customerProfile (ui w)); now split.
Qed.

Lemma reachable_request_inv w : reachable w -> request_inv w.
Proof.
  induction 1 as [u st | e w _ IH]; [|now apply request_inv_handle].
  unfold mount. destruct (loadSavedProfiles_inputs (fresh u st)) as (A & _ & C).
  split; rewrite ?A, ?C; simpl; [discriminate | constructor].
Qed.

(** X22. No request is ever built from a blank required input: in every
    reachable state, each prompt sent so far is the prompt of inputs whose
    vision statement, mission statement and business description all
    carried text; and on step 2 the two statements are never blank,
    whether the step was entered by the continue control or by a
    template. *)
Theorem requests_come_from_filled_inputs (w : World) :
  reachable w ->
  Forall (fun r => exists s, r = prompt s /\ filled s = true) (requests w)
  /\ (step (ui w) = 2 ->
      blank (visionStatement (ui w)) = false
      /\ blank (missionStatement (ui w)) = false).
Proof.
  intros Hr. destruct (reachable_request_inv w Hr) as [A B]. auto.
Qed.

Lemma requests_come_from_filled_inputs_witness :
  Forall (fun r => exists s, r = prompt s /\ filled s = true)
    (requests sample_result).
Proof.
  exact (proj1 (requests_come_from_filled_inputs sample_result
                  sample_result_reachable)).
Defined.

(** ** The schema of the request and the interface *)

(** A required property of a conforming object is there, and conforms to
    the schema declared for it. *)
Lemma conforms_prop props req m k sub :
  conforms (SObject props req) (JObject m) = true ->
  In k req -> schema_of props k = Some sub ->
  exists v, get_prop k (JObject m) = Some v /\ conforms sub v = true.
Proof.
  cbn [conforms]. intros H Hk Hsub.
  apply andb_true_iff in H as [Hreq Hall].
  rewrite forallb_forall in Hreq. specialize (Hreq k Hk).
  clear Hk req. unfold has_key in Hreq. cbn [get_prop].
  induction m as [|kv m IH]; [discriminate|].
  cbn [forallb] in Hall. apply andb_true_iff in Hall as [Hkv Hall].
  cbn [existsb] in Hreq. cbn [find].
  destruct (bool_decide (fst kv = k)) eqn:E.
  - apply bool_decide_eq_true in E. subst k. exists (snd kv). split; [reflexivity|].
    clear -Hkv Hsub. induction props as [|[k' sub'] props IH]; [discriminate|].
    cbn [schema_of] in Hsub. destruct (bool_decide (k' = fst kv)).
    + now injection Hsub as <-.
    + now apply IH.
  - apply IH; assumption.
Qed.

Lemma conforms_string v : conforms SString v = true -> exists s, as_string v = Some s.
Proof. destruct v; try discriminate. eauto. Qed.

Lemma conforms_strings v :
  conforms string_array v = true -> exists l, as_strings v = Some l.
Proof.
  destruct v as [| | | |items|]; try discriminate.
  unfold string_array. cbn [conforms as_strings].
  induction items as [|x items IH]; [now exists []|].
  cbn [forallb all_strings]. intros H. apply andb_true_iff in H as [Hx H].
  destruct (conforms_string x Hx) as [s ->]. destruct (IH H) as [l ->]. eauto.
Qed.

Lemma conforms_is_object props req v :
  conforms (SObject props req) v = true -> exists m, v = JObject m.
Proof. destruct v; try discriminate. eauto. Qed.

(** Reading a required property off a conforming object. *)
Ltac required_prop H k v Hv Hc :=
  destruct (conforms_prop _ _ _ k _ H
              ltac:(cbn [In]; tauto) ltac:(vm_compute; reflexivity))
    as (v & Hv & Hc).

Ltac read_required H k :=
  let v := fresh "v" in let Hv := fresh "Hv" in let Hc := fresh "Hc" in
  let x := fresh "x" in let Hx := fresh "Hx" in
  required_prop H k v Hv Hc;
  first [ destruct (conforms_strings v Hc) as [x Hx]
        | destruct (conforms_string v Hc) as [x Hx] ];
  unfold string_prop, strings_prop; rewrite Hv; cbn [mbind option_bind];
  rewrite Hx; cbn [mbind option_bind]; clear v Hv Hc Hx.

(** X23. Whatever value satisfies the schema sent with the request
    carries every field of the [CustomerProfile] interface with its type:
    the component's cast of the reply to that interface is sound for
    every conforming reply, also one with further properties. *)
Theorem conforming_reply_is_a_profile (v : JValue) :
  conforms profile_schema v = true -> exists p, profile_of_json v = Some p.
Proof.
  intros H. destruct (conforms_is_object _ _ _ H) as [m ->].
  unfold profile_schema in H. unfold profile_of_json.
  required_prop H (lit "demographics") vd Hvd Hcd.
  required_prop H (lit "psychographics") vp Hvp Hcp.
  required_prop H (lit "buyingBehavior") vb Hvb Hcb.
  destruct (conforms_is_object _ _ _ Hcd) as [md ->].
  destruct (conforms_is_object _ _ _ Hcp) as [mp ->].
  destruct (conforms_is_object _ _ _ Hcb) as [mb ->].
  rewrite Hvd. cbn [mbind option_bind]. unfold demographics_of_json.
  read_required Hcd (lit "ageRange"). read_required Hcd (lit "gender").
  read_required Hcd (lit "location"). read_required Hcd (lit "income").
  read_required Hcd (lit "education").
  rewrite Hvp. cbn [mbind option_bind]. unfold psychographics_of_json.
  read_required Hcp (lit "values"). read_required Hcp (lit "interests").
  read_required Hcp (lit "lifestyle"). read_required Hcp (lit "personality").
  read_required H (lit "painPoints"). read_required H (lit "motivations").
  read_required H (lit "goals"). read_required H (lit "communicationChannels").
  rewrite Hvb. cbn [mbind option_bind]. unfold buyingBehavior_of_json.
  read_required Hcb (lit "decisionFactors"). read_required Hcb (lit "purchaseProcess").
  read_required Hcb (lit "budget").
  eauto.
Qed.

Lemma conforming_reply_is_a_profile_witness :
  conforms profile_schema reply_with_note = true
  /\ exists p, profile_of_json reply_with_note = Some p.
Proof.
  split; [vm_compute; reflexivity|].
  apply conforming_reply_is_a_profile. vm_compute. reflexivity.
Defined.
